(** * Filter schemas of the Orion API: validation and compilation to SQL clauses

    A shallow embedding of [src/prefect/orion/schemas/filters.py].

    The module declares pydantic models.  A model instance is built from
    keyword arguments: every declared field is validated on its own, the
    surviving fields form the dictionary [values], and the root validators of
    [PrefectFilterBaseModel] then run on [values].  A validated filter is
    turned into a SQLAlchemy clause by its method [as_sql_filter].

    Python objects are modelled by the type [PyVal]; dictionaries by
    association lists in insertion order (the order pydantic builds [values]
    in, which is the order the fields are declared in). *)

From Stdlib Require Import String List ZArith Bool Lia Permutation.
Import ListNotations.
Local Open Scope string_scope.
Local Open Scope Z_scope.

(** ** Python values *)

(** The classes of filters.py that derive from [PrefectFilterBaseModel],
    in the order they are declared. *)
Inductive Class : Type :=
| FlowFilterId
| FlowFilterName
| FlowFilterTags
| FlowFilter
| FlowRunFilterId
| FlowRunFilterTags
| FlowRunFilterDeploymentId
| FlowRunFilterStateType
| FlowRunFilterFlowVersion
| FlowRunFilterStartTime
| FlowRunFilterExpectedStartTime
| FlowRunFilterNextScheduledStartTime
| FlowRunFilterParentTaskRunId
| FlowRunFilter
| TaskRunFilterId
| TaskRunFilterTags
| TaskRunFilterStateType
| TaskRunFilterStartTime
| TaskRunFilter.

Scheme Equality for Class.

(** Elements of the lists carried by [any_], [not_any_] and [all_]:
    a [UUID] (128-bit number), a [str], or a member of the enumeration
    [schemas.states.StateType] (by name; the enumeration is declared
    outside this file). *)
Inductive Scalar : Type :=
| UUID (n : N)
| Str (s : string)
| StateType (name : string).

(** Python objects that reach the models.  A [datetime.datetime] is either
    aware (it carries a time zone and denotes an instant) or naive (it
    denotes a wall-clock reading); [PDatetime aware t] holds that flag and
    the count [t] of microseconds, of the instant or of the reading.
    [PDict] is a raw mapping, [PModel c values] an instance of class [c]
    whose fields hold [values]. *)
#[warnings="-register-all"]
Inductive PyVal : Type :=
| PNone
| PBool (b : bool)
| PList (l : list Scalar)
| PDatetime (aware : bool) (t : Z)
| PDict (items : list (string * PyVal))
| PModel (c : Class) (values : list (string * PyVal)).

Definition Dict : Type := list (string * PyVal).

(** [d.get(key)]: the value stored under [key], [None] when there is none. *)
Fixpoint get (key : string) (d : Dict) : PyVal :=
  match d with
  | [] => PNone
  | (k, v) :: d' => if String.eqb key k then v else get key d'
  end.

(** [v is not None] *)
Definition is_not_None (v : PyVal) : bool :=
  match v with
  | PNone => false
  | _ => true
  end.

(** Truth value of an object, as [if v:] tests it: [None], [False] and
    empty containers are false; [datetime] and model instances define
    neither [__bool__] nor [__len__] and are always true. *)
Definition truthy (v : PyVal) : bool :=
  match v with
  | PNone => false
  | PBool b => b
  | PList l => match l with [] => false | _ => true end
  | PDatetime _ _ => true
  | PDict items => match items with [] => false | _ => true end
  | PModel _ _ => true
  end.

(** [a < b]: defined between two aware datetimes and between two naive
    ones; [None] stands for the [TypeError] Python raises on operands that
    do not compare, a naive datetime beside an aware one among them. *)
Definition py_lt (a b : PyVal) : option bool :=
  match a, b with
  | PDatetime aware_a x, PDatetime aware_b y =>
      if Bool.eqb aware_a aware_b then Some (x <? y) else None
  | _, _ => None
  end.

(** ** Errors and outcomes *)

(** One entry of a pydantic [ValidationError].  The root validators raise
    [ValueError] with a message; the constructors name the raise sites:
    - [MissingOperator]: Prefect Filter must have at least one operator
      with arguments.
    - [ConflictingOperators] on all_ and is_null_: Cannot provide Prefect
      Filter ... all_ with is_null_ = True
    - [ConflictingOperators] on any_ and is_null_: Cannot provide Prefect
      Filter ... any_ with is_null_ = True
    - [ConflictingOperators] on any_ and not_any_: Cannot provide Prefect
      Filter ... any_ and not_any_
    - [InvalidRange]: Cannot provide Prefect Filter ... where before_ is
      less than after_
    - [ComparisonError]: the [TypeError] of a failed comparison
    - [FieldError loc]: the field [loc] did not validate against its type
    - [OutOfRange loc]: a [conint] bound of field [loc] is violated. *)
Inductive Error : Type :=
| MissingOperator
| ConflictingOperators (a b : string)
| InvalidRange
| ComparisonError
| FieldError (loc : string)
| OutOfRange (loc : string).

Inductive Exn : Type :=
| ValidationError (errors : list Error)
| AttributeError
| ArgumentError.

(** Result of a call: a returned value or a raised exception. *)
Inductive outcome (A : Type) : Type :=
| Returns (a : A)
| Raises (e : Exn).

Arguments Returns {A} a.
Arguments Raises {A} e.

Definition bind {A B : Type} (m : outcome A) (k : A -> outcome B) : outcome B :=
  match m with
  | Returns a => k a
  | Raises e => Raises e
  end.

Notation "x <- m ;; k" := (bind m (fun x => k))
  (at level 61, m at next level, right associativity).

(** ** Field declarations *)

Inductive ElemType : Type := T_UUID | T_str | T_StateType.

(** Declared type of a field.  Every field of every filter class has the
    default [None], so each is optional. *)
Inductive FieldType : Type :=
| List_ (e : ElemType)
| bool_
| datetime_
| Model_ (c : Class).

(** The fields of each class, in declaration order. *)
Definition fields (c : Class) : list (string * FieldType) :=
  match c with
  | FlowFilterId => [("any_", List_ T_UUID)]
  | FlowFilterName => [("any_", List_ T_str)]
  | FlowFilterTags => [("all_", List_ T_str); ("is_null_", bool_)]
  | FlowFilter =>
      [("id", Model_ FlowFilterId);
       ("name", Model_ FlowFilterName);
       ("tags", Model_ FlowFilterTags)]
  | FlowRunFilterId => [("any_", List_ T_UUID); ("not_any_", List_ T_UUID)]
  | FlowRunFilterTags => [("all_", List_ T_str); ("is_null_", bool_)]
  | FlowRunFilterDeploymentId => [("any_", List_ T_UUID); ("is_null_", bool_)]
  | FlowRunFilterStateType => [("any_", List_ T_StateType)]
  | FlowRunFilterFlowVersion => [("any_", List_ T_str)]
  | FlowRunFilterStartTime => [("before_", datetime_); ("after_", datetime_)]
  | FlowRunFilterExpectedStartTime =>
      [("before_", datetime_); ("after_", datetime_)]
  | FlowRunFilterNextScheduledStartTime =>
      [("before_", datetime_); ("after_", datetime_)]
  | FlowRunFilterParentTaskRunId =>
      [("any_", List_ T_UUID); ("is_null_", bool_)]
  | FlowRunFilter =>
      [("id", Model_ FlowRunFilterId);
       ("tags", Model_ FlowRunFilterTags);
       ("deployment_id", Model_ FlowRunFilterDeploymentId);
       ("state_type", Model_ FlowRunFilterStateType);
       ("flow_version", Model_ FlowRunFilterFlowVersion);
       ("start_time", Model_ FlowRunFilterStartTime);
       ("expected_start_time", Model_ FlowRunFilterExpectedStartTime);
       ("next_scheduled_start_time",
         Model_ FlowRunFilterNextScheduledStartTime);
       ("parent_task_run_id", Model_ FlowRunFilterParentTaskRunId)]
  | TaskRunFilterId => [("any_", List_ T_UUID)]
  | TaskRunFilterTags => [("all_", List_ T_str); ("is_null_", bool_)]
  | TaskRunFilterStateType => [("any_", List_ T_StateType)]
  | TaskRunFilterStartTime => [("before_", datetime_); ("after_", datetime_)]
  | TaskRunFilter =>
      [("id", Model_ TaskRunFilterId);
       ("tags", Model_ TaskRunFilterTags);
       ("state_type", Model_ TaskRunFilterStateType);
       ("start_time", Model_ TaskRunFilterStartTime)]
  end.

Definition field_names (c : Class) : list string := map fst (fields c).

(** [declares c name]: class [c] has a field called [name]. *)
Definition declares (c : Class) (name : string) : bool :=
  existsb (String.eqb name) (field_names c).

(** The per-entity filters hold one optional per-field filter each; the
    per-field filters hold operator attributes. *)
Definition is_composite (c : Class) : bool :=
  match c with
  | FlowFilter | FlowRunFilter | TaskRunFilter => true
  | _ => false
  end.

Definition is_leaf (c : Class) : bool := negb (is_composite c).

(** ** Root validators of [PrefectFilterBaseModel]

    A root validator receives [values] and either raises or returns
    [values]. *)

Definition check_at_least_one_operator_is_not_none (values : Dict)
  : Error + Dict :=
  if negb (existsb is_not_None (map snd values))
  then inl MissingOperator
  else inr values.

Definition check_all_and_is_null_are_not_both_supplied (values : Dict)
  : Error + Dict :=
  if is_not_None (get "all_" values) && truthy (get "is_null_" values)
  then inl (ConflictingOperators "all_" "is_null_")
  else inr values.

Definition check_any_and_is_null_are_not_both_supplied (values : Dict)
  : Error + Dict :=
  if is_not_None (get "any_" values) && truthy (get "is_null_" values)
  then inl (ConflictingOperators "any_" "is_null_")
  else inr values.

Definition check_any_and_is_not_any_are_not_both_supplied (values : Dict)
  : Error + Dict :=
  if is_not_None (get "any_" values) && truthy (get "not_any_" values)
  then inl (ConflictingOperators "any_" "not_any_")
  else inr values.

Definition check_before_and_after_are_not_mutually_exclusive (values : Dict)
  : Error + Dict :=
  if is_not_None (get "before_" values) && is_not_None (get "after_" values)
  then
    match py_lt (get "before_" values) (get "after_" values) with
    | Some true => inl InvalidRange
    | Some false => inr values
    | None => inl ComparisonError
    end
  else inr values.

(** The root validators every filter class inherits, in definition order. *)
Definition root_validators : list (Dict -> Error + Dict) :=
  [check_at_least_one_operator_is_not_none;
   check_all_and_is_null_are_not_both_supplied;
   check_any_and_is_null_are_not_both_supplied;
   check_any_and_is_not_any_are_not_both_supplied;
   check_before_and_after_are_not_mutually_exclusive].

(** ** Construction of a model (pydantic's [validate_model]) *)

(** Validation of one supplied value against the declared type.  [None] is
    accepted everywhere; a value of the declared shape is kept; a field that
    holds a model is delegated to [sub].  The values are taken as pydantic
    leaves them after its conversions: a list holds elements of the
    declared element type, and what pydantic would first convert into the
    declared shape (a number or a string given for a datetime, a string
    given for a UUID) is given here in that shape. *)
Definition validate_field (sub : Class -> PyVal -> option PyVal)
    (ty : FieldType) (v : PyVal) : option PyVal :=
  match v, ty with
  | PNone, _ => Some PNone
  | PList _, List_ _ => Some v
  | PBool _, bool_ => Some v
  | PDatetime _ _, datetime_ => Some v
  | _, Model_ c => sub c v
  | _, _ => None
  end.

(** Field by field: an absent key takes the default [None]; a field that
    fails is reported and left out of [values].  Keys of [kwargs] that name
    no field are ignored. *)
Fixpoint validate_fields (sub : Class -> PyVal -> option PyVal)
    (fs : list (string * FieldType)) (kwargs : Dict) : Dict * list Error :=
  match fs with
  | [] => ([], [])
  | (name, ty) :: fs' =>
      let '(values, errors) := validate_fields sub fs' kwargs in
      match validate_field sub ty (get name kwargs) with
      | Some v => ((name, v) :: values, errors)
      | None => (values, FieldError name :: errors)
      end
  end.

(** Every root validator runs, also after an earlier one has raised; the
    errors accumulate. *)
Fixpoint run_root_validators (vs : list (Dict -> Error + Dict))
    (values : Dict) (errors : list Error) : Dict * list Error :=
  match vs with
  | [] => (values, errors)
  | validator :: vs' =>
      match validator values with
      | inr values' => run_root_validators vs' values' errors
      | inl e => run_root_validators vs' values (errors ++ [e])%list
      end
  end.

Definition validate_model (sub : Class -> PyVal -> option PyVal)
    (c : Class) (kwargs : Dict) : Dict * list Error :=
  let '(values, errors) := validate_fields sub (fields c) kwargs in
  run_root_validators root_validators values errors.

Definition init_with (sub : Class -> PyVal -> option PyVal)
    (c : Class) (kwargs : Dict) : outcome PyVal :=
  match validate_model sub c kwargs with
  | (values, []) => Returns (PModel c values)
  | (_, errors) => Raises (ValidationError errors)
  end.

(** Construction of a per-field filter: none of its fields holds a model. *)
Definition init_leaf : Class -> Dict -> outcome PyVal :=
  init_with (fun _ _ => None).

(** A field that holds a model accepts an instance of the declared class as
    it is, and builds one from a raw mapping.  An instance of another class
    is read as the mapping of its fields and built anew as the declared
    class. *)
Definition validate_submodel (c : Class) (v : PyVal) : option PyVal :=
  match v with
  | PModel c' values =>
      if Class_beq c c' then Some v
      else
        match init_leaf c values with
        | Returns inst => Some inst
        | Raises _ => None
        end
  | PDict items =>
      match init_leaf c items with
      | Returns inst => Some inst
      | Raises _ => None
      end
  | _ => None
  end.

(** Construction of any filter class from keyword arguments. *)
Definition init : Class -> Dict -> outcome PyVal := init_with validate_submodel.

(** ** SQL clauses *)

Inductive Table : Type := Flow | FlowRun | TaskRun.

(** A mapped column, [orm.<table>.<attribute>]. *)
Record Column : Type := Col { table : Table; attribute : string }.

(** The SQLAlchemy expressions the filters build.  [Literal v] is the Python
    object [v] standing where a clause is expected, as SQLAlchemy coerces
    it: [Literal (PBool true)] and [Literal (PBool false)] are the constants
    [true()] and [false()], [Literal PNone] is [null()]. *)
#[warnings="-register-all"]
Inductive Clause : Type :=
| InOp (column : Column) (l : list Scalar)
| NotInOp (column : Column) (l : list Scalar)
| EqOp (column : Column) (v : PyVal)
| NeOp (column : Column) (v : PyVal)
| LeOp (column : Column) (v : PyVal)
| GeOp (column : Column) (v : PyVal)
| BetweenOp (column : Column) (cleft cright : PyVal)
| JsonHasAllKeys (column : Column) (keys : PyVal)
| Literal (v : PyVal)
| And (clauses : list Clause).

(** [column.in_(v)] and [column.not_in(v)] take a sequence; SQLAlchemy
    rejects any other operand, [None] included. *)
Definition in_ (column : Column) (v : PyVal) : outcome Clause :=
  match v with
  | PList l => Returns (InOp column l)
  | _ => Raises ArgumentError
  end.

Definition not_in (column : Column) (v : PyVal) : outcome Clause :=
  match v with
  | PList l => Returns (NotInOp column l)
  | _ => Raises ArgumentError
  end.

(** The constants a conjunction treats apart: [true()] is passed over,
    [false()] cancels everything else. *)
Definition is_True_ (clause : Clause) : bool :=
  match clause with
  | Literal (PBool true) => true
  | _ => false
  end.

Definition is_False_ (clause : Clause) : bool :=
  match clause with
  | Literal (PBool false) => true
  | _ => false
  end.

(** The loop of SQLAlchemy over the operands of a conjunction:
    [convert_clauses] collects the operands kept so far, [has_continue_on]
    the last [true()] met.  A [false()] ends the loop and is kept alone; a
    [true()] is kept only when nothing else is. *)
Fixpoint process_clauses_for_boolean (clauses convert_clauses : list Clause)
    (has_continue_on : option Clause) : list Clause :=
  match clauses with
  | [] =>
      match convert_clauses, has_continue_on with
      | [], Some clause => [clause]
      | _, _ => convert_clauses
      end
  | clause :: clauses' =>
      if is_True_ clause then
        process_clauses_for_boolean clauses' convert_clauses (Some clause)
      else if is_False_ clause then [clause]
      else
        process_clauses_for_boolean clauses' (convert_clauses ++ [clause])%list
          has_continue_on
  end.

(** [sa.and_] applied to the unpacked list [clauses]: a single operand that
    is kept is returned as it is, several are joined in a conjunction. *)
Definition and_ (clauses : list Clause) : Clause :=
  match process_clauses_for_boolean clauses [] None with
  | [clause] => clause
  | convert_clauses => And convert_clauses
  end.

(** ** [as_sql_filter] of the per-field filters

    [self] is the field dictionary of the instance; the result is the
    returned object, [None] when the body falls off its end. *)

Definition FlowFilterId_as_sql_filter (self : Dict) : outcome (option Clause) :=
  r <- in_ (Col Flow "id") (get "any_" self) ;; Returns (Some r).

Definition FlowFilterName_as_sql_filter (self : Dict)
  : outcome (option Clause) :=
  r <- in_ (Col Flow "name") (get "any_" self) ;; Returns (Some r).

Definition FlowFilterTags_as_sql_filter (self : Dict)
  : outcome (option Clause) :=
  if is_not_None (get "all_" self) then
    Returns (Some (JsonHasAllKeys (Col Flow "tags") (get "all_" self)))
  else if is_not_None (get "is_null_" self) then
    Returns (Some (if truthy (get "is_null_" self)
                   then EqOp (Col Flow "tags") (PList [])
                   else NeOp (Col Flow "tags") (PList [])))
  else Returns None.

Definition FlowRunFilterId_as_sql_filter (self : Dict)
  : outcome (option Clause) :=
  if is_not_None (get "any_" self) then
    r <- in_ (Col FlowRun "id") (get "any_" self) ;; Returns (Some r)
  else if is_not_None (get "not_any_" self) then
    r <- not_in (Col FlowRun "id") (get "not_any_" self) ;; Returns (Some r)
  else Returns None.

Definition FlowRunFilterTags_as_sql_filter (self : Dict)
  : outcome (option Clause) :=
  if is_not_None (get "all_" self) then
    Returns (Some (JsonHasAllKeys (Col FlowRun "tags") (get "all_" self)))
  else if is_not_None (get "is_null_" self) then
    Returns (Some (if truthy (get "is_null_" self)
                   then EqOp (Col FlowRun "tags") (PList [])
                   else NeOp (Col FlowRun "tags") (PList [])))
  else Returns None.

Definition FlowRunFilterDeploymentId_as_sql_filter (self : Dict)
  : outcome (option Clause) :=
  if is_not_None (get "any_" self) then
    r <- in_ (Col FlowRun "deployment_id") (get "any_" self) ;;
    Returns (Some r)
  else if is_not_None (get "is_null_" self) then
    Returns (Some (if truthy (get "is_null_" self)
                   then EqOp (Col FlowRun "deployment_id") PNone
                   else NeOp (Col FlowRun "deployment_id") PNone))
  else Returns None.

Definition FlowRunFilterStateType_as_sql_filter (self : Dict)
  : outcome (option Clause) :=
  r <- in_ (Col FlowRun "state_type") (get "any_" self) ;; Returns (Some r).

Definition FlowRunFilterFlowVersion_as_sql_filter (self : Dict)
  : outcome (option Clause) :=
  r <- in_ (Col FlowRun "flow_version") (get "any_" self) ;; Returns (Some r).

Definition FlowRunFilterStartTime_as_sql_filter (self : Dict)
  : outcome (option Clause) :=
  if truthy (get "before_" self) && truthy (get "after_" self) then
    Returns (Some (BetweenOp (Col FlowRun "start_time")
                     (get "after_" self) (get "before_" self)))
  else if truthy (get "before_" self) then
    Returns (Some (LeOp (Col FlowRun "start_time") (get "before_" self)))
  else if truthy (get "after_" self) then
    Returns (Some (GeOp (Col FlowRun "start_time") (get "after_" self)))
  else Returns None.

Definition FlowRunFilterExpectedStartTime_as_sql_filter (self : Dict)
  : outcome (option Clause) :=
  if truthy (get "before_" self) && truthy (get "after_" self) then
    Returns (Some (BetweenOp (Col FlowRun "expected_start_time")
                     (get "after_" self) (get "before_" self)))
  else if truthy (get "before_" self) then
    Returns (Some (LeOp (Col FlowRun "expected_start_time")
                     (get "before_" self)))
  else if truthy (get "after_" self) then
    Returns (Some (GeOp (Col FlowRun "expected_start_time")
                     (get "after_" self)))
  else Returns None.

Definition FlowRunFilterNextScheduledStartTime_as_sql_filter (self : Dict)
  : outcome (option Clause) :=
  if truthy (get "before_" self) && truthy (get "after_" self) then
    Returns (Some (BetweenOp (Col FlowRun "next_scheduled_start_time")
                     (get "after_" self) (get "before_" self)))
  else if truthy (get "before_" self) then
    Returns (Some (LeOp (Col FlowRun "next_scheduled_start_time")
                     (get "before_" self)))
  else if truthy (get "after_" self) then
    Returns (Some (GeOp (Col FlowRun "next_scheduled_start_time")
                     (get "after_" self)))
  else Returns None.

Definition FlowRunFilterParentTaskRunId_as_sql_filter (self : Dict)
  : outcome (option Clause) :=
  if is_not_None (get "any_" self) then
    r <- in_ (Col FlowRun "parent_task_run_id") (get "any_" self) ;;
    Returns (Some r)
  else if is_not_None (get "is_null_" self) then
    Returns (Some (if truthy (get "is_null_" self)
                   then EqOp (Col FlowRun "parent_task_run_id") PNone
                   else NeOp (Col FlowRun "parent_task_run_id") PNone))
  else Returns None.

Definition TaskRunFilterId_as_sql_filter (self : Dict)
  : outcome (option Clause) :=
  r <- in_ (Col TaskRun "id") (get "any_" self) ;; Returns (Some r).

Definition TaskRunFilterTags_as_sql_filter (self : Dict)
  : outcome (option Clause) :=
  if is_not_None (get "all_" self) then
    Returns (Some (JsonHasAllKeys (Col TaskRun "tags") (get "all_" self)))
  else if is_not_None (get "is_null_" self) then
    Returns (Some (if truthy (get "is_null_" self)
                   then EqOp (Col TaskRun "tags") (PList [])
                   else NeOp (Col TaskRun "tags") (PList [])))
  else Returns None.

Definition TaskRunFilterStateType_as_sql_filter (self : Dict)
  : outcome (option Clause) :=
  r <- in_ (Col TaskRun "state_type") (get "any_" self) ;; Returns (Some r).

Definition TaskRunFilterStartTime_as_sql_filter (self : Dict)
  : outcome (option Clause) :=
  if truthy (get "before_" self) && truthy (get "after_" self) then
    Returns (Some (BetweenOp (Col TaskRun "start_time")
                     (get "after_" self) (get "before_" self)))
  else if truthy (get "before_" self) then
    Returns (Some (LeOp (Col TaskRun "start_time") (get "before_" self)))
  else if truthy (get "after_" self) then
    Returns (Some (GeOp (Col TaskRun "start_time") (get "after_" self)))
  else Returns None.

(** [obj.as_sql_filter()] on the object held by a field of a per-entity
    filter: the method of the object's class.  The declared field types
    admit per-field filters only; any other object has no such method
    here. *)
Definition leaf_as_sql_filter (obj : PyVal) : outcome (option Clause) :=
  match obj with
  | PModel FlowFilterId self => FlowFilterId_as_sql_filter self
  | PModel FlowFilterName self => FlowFilterName_as_sql_filter self
  | PModel FlowFilterTags self => FlowFilterTags_as_sql_filter self
  | PModel FlowRunFilterId self => FlowRunFilterId_as_sql_filter self
  | PModel FlowRunFilterTags self => FlowRunFilterTags_as_sql_filter self
  | PModel FlowRunFilterDeploymentId self =>
      FlowRunFilterDeploymentId_as_sql_filter self
  | PModel FlowRunFilterStateType self =>
      FlowRunFilterStateType_as_sql_filter self
  | PModel FlowRunFilterFlowVersion self =>
      FlowRunFilterFlowVersion_as_sql_filter self
  | PModel FlowRunFilterStartTime self =>
      FlowRunFilterStartTime_as_sql_filter self
  | PModel FlowRunFilterExpectedStartTime self =>
      FlowRunFilterExpectedStartTime_as_sql_filter self
  | PModel FlowRunFilterNextScheduledStartTime self =>
      FlowRunFilterNextScheduledStartTime_as_sql_filter self
  | PModel FlowRunFilterParentTaskRunId self =>
      FlowRunFilterParentTaskRunId_as_sql_filter self
  | PModel TaskRunFilterId self => TaskRunFilterId_as_sql_filter self
  | PModel TaskRunFilterTags self => TaskRunFilterTags_as_sql_filter self
  | PModel TaskRunFilterStateType self =>
      TaskRunFilterStateType_as_sql_filter self
  | PModel TaskRunFilterStartTime self =>
      TaskRunFilterStartTime_as_sql_filter self
  | _ => Raises AttributeError
  end.

(** ** [as_sql_filter] of the per-entity filters *)

(** The object a call returned, as an element of [filters]. *)
Definition as_clause (r : option Clause) : Clause :=
  match r with
  | Some c => c
  | None => Literal PNone
  end.

(** The statement the three methods repeat for each field:
    [if field is not None: filters.append(field.as_sql_filter())]. *)
Definition append_filter (filters : list Clause) (field : PyVal)
  : outcome (list Clause) :=
  if is_not_None field then
    r <- leaf_as_sql_filter field ;; Returns (filters ++ [as_clause r])%list
  else Returns filters.

(** The returned expression: [sa.and_] of the unpacked [filters] if
    [filters] is non-empty, else [sa.and_(True)]. *)
Definition and_filters (filters : list Clause) : Clause :=
  match filters with
  | [] => and_ [Literal (PBool true)]
  | _ => and_ filters
  end.

Definition FlowFilter_as_sql_filter (self : Dict) : outcome Clause :=
  let filters := [] in
  filters <- append_filter filters (get "id" self) ;;
  filters <- append_filter filters (get "name" self) ;;
  filters <- append_filter filters (get "tags" self) ;;
  Returns (and_filters filters).

Definition FlowRunFilter_as_sql_filter (self : Dict) : outcome Clause :=
  let filters := [] in
  filters <- append_filter filters (get "id" self) ;;
  filters <- append_filter filters (get "tags" self) ;;
  filters <- append_filter filters (get "deployment_id" self) ;;
  filters <- append_filter filters (get "flow_version" self) ;;
  filters <- append_filter filters (get "state_type" self) ;;
  filters <- append_filter filters (get "start_time" self) ;;
  filters <- append_filter filters (get "expected_start_time" self) ;;
  filters <- append_filter filters (get "next_scheduled_start_time" self) ;;
  filters <- append_filter filters (get "parent_task_run_id" self) ;;
  Returns (and_filters filters).

Definition TaskRunFilter_as_sql_filter (self : Dict) : outcome Clause :=
  let filters := [] in
  filters <- append_filter filters (get "id" self) ;;
  filters <- append_filter filters (get "tags" self) ;;
  filters <- append_filter filters (get "state_type" self) ;;
  filters <- append_filter filters (get "start_time" self) ;;
  Returns (and_filters filters).

(** [obj.as_sql_filter()] for an instance of any filter class. *)
Definition as_sql_filter (obj : PyVal) : outcome (option Clause) :=
  match obj with
  | PModel FlowFilter self =>
      r <- FlowFilter_as_sql_filter self ;; Returns (Some r)
  | PModel FlowRunFilter self =>
      r <- FlowRunFilter_as_sql_filter self ;; Returns (Some r)
  | PModel TaskRunFilter self =>
      r <- TaskRunFilter_as_sql_filter self ;; Returns (Some r)
  | _ => leaf_as_sql_filter obj
  end.

(** ** Pagination *)

(** [conint(ge=.., le=..)]: an integer within the given bounds. *)
Definition conint (ge_ : option Z) (le_ : option Z) (v : Z) : bool :=
  match ge_ with Some lo => lo <=? v | None => true end
  && match le_ with Some hi => v <=? hi | None => true end.

Record PaginationModel : Type := { limit : Z; offset : Z }.

Section Pagination.

(** The setting [prefect.settings.orion.api.default_limit], declared
    outside this file. *)
Variable default_limit : Z.

(** Validation of one constrained integer field; an absent field takes
    its default, which is not validated. *)
Definition validate_conint (loc : string) (ge_ le_ : option Z)
    (default : Z) (supplied : option Z) : Z + Error :=
  match supplied with
  | None => inl default
  | Some v => if conint ge_ le_ v then inl v else inr (OutOfRange loc)
  end.

(** Construction of [Pagination] from the optional arguments [limit]
    and [offset]. *)
Definition Pagination (limit_ offset_ : option Z) : outcome PaginationModel :=
  match validate_conint "limit" (Some 0) (Some default_limit)
                        default_limit limit_,
        validate_conint "offset" (Some 0) None 0 offset_ with
  | inl l, inl o => Returns {| limit := l; offset := o |}
  | inr e, inl _ => Raises (ValidationError [e])
  | inl _, inr e => Raises (ValidationError [e])
  | inr e1, inr e2 => Raises (ValidationError [e1; e2])
  end.

End Pagination.

(** ** Vocabulary of the specification

    The specification names the compiled predicates abstractly.  The
    definitions below give each name the clause it stands for. *)

(** The entity a filter class selects from. *)
Definition entity (c : Class) : Table :=
  match c with
  | FlowFilterId | FlowFilterName | FlowFilterTags | FlowFilter => Flow
  | TaskRunFilterId | TaskRunFilterTags | TaskRunFilterStateType
  | TaskRunFilterStartTime | TaskRunFilter => TaskRun
  | _ => FlowRun
  end.

(** The attribute of the entity a per-field filter constrains; a per-entity
    filter constrains none. *)
Definition filtered_attribute (c : Class) : string :=
  match c with
  | FlowFilterId | FlowRunFilterId | TaskRunFilterId => "id"
  | FlowFilterName => "name"
  | FlowFilterTags | FlowRunFilterTags | TaskRunFilterTags => "tags"
  | FlowRunFilterDeploymentId => "deployment_id"
  | FlowRunFilterStateType | TaskRunFilterStateType => "state_type"
  | FlowRunFilterFlowVersion => "flow_version"
  | FlowRunFilterStartTime | TaskRunFilterStartTime => "start_time"
  | FlowRunFilterExpectedStartTime => "expected_start_time"
  | FlowRunFilterNextScheduledStartTime => "next_scheduled_start_time"
  | FlowRunFilterParentTaskRunId => "parent_task_run_id"
  | FlowFilter | FlowRunFilter | TaskRunFilter => ""
  end.

Definition column (c : Class) : Column :=
  Col (entity c) (filtered_attribute c).

(** Timestamp filters: the classes with the bounds [before_] and [after_]. *)
Definition is_range (c : Class) : bool :=
  declares c "before_" && declares c "after_".

Definition IN (field : Column) (set : list Scalar) : Clause := InOp field set.
Definition NOT_IN (field : Column) (set : list Scalar) : Clause :=
  NotInOp field set.
Definition SUPERSET (field : Column) (set : PyVal) : Clause :=
  JsonHasAllKeys field set.
Definition LE (field : Column) (value : PyVal) : Clause := LeOp field value.
Definition GE (field : Column) (value : PyVal) : Clause := GeOp field value.
Definition BETWEEN (field : Column) (low high : PyVal) : Clause :=
  BetweenOp field low high.
Definition AND (children : list Clause) : Clause := And children.

(** What an empty field holds: the multi-valued [tags] columns hold the
    empty list, every other column holds NULL. *)
Definition empty_value (field : Column) : PyVal :=
  if String.eqb (attribute field) "tags" then PList [] else PNone.

Definition IS_EMPTY (field : Column) : Clause :=
  EqOp field (empty_value field).
Definition IS_NOT_EMPTY (field : Column) : Clause :=
  NeOp field (empty_value field).

(** The predicate of a range filter, in the words of the specification:
    both bounds present give BETWEEN(field, after_, before_), only [before_]
    gives LE, only [after_] gives GE. *)
Definition range_predicate (field : Column) (before_ after_ : PyVal)
  : option Clause :=
  match before_, after_ with
  | PNone, PNone => None
  | _, PNone => Some (LE field before_)
  | PNone, _ => Some (GE field after_)
  | _, _ => Some (BETWEEN field after_ before_)
  end.

(** The fragments of the populated fields among [names], in the order of
    [names]. *)
Fixpoint fragments (names : list string) (self : Dict)
  : outcome (list Clause) :=
  match names with
  | [] => Returns []
  | name :: names' =>
      if is_not_None (get name self) then
        r <- leaf_as_sql_filter (get name self) ;;
        rest <- fragments names' self ;;
        Returns (as_clause r :: rest)
      else fragments names' self
  end.

(** Compilation of a per-entity filter in the words of the specification:
    the fragments, collected in the order of [names], wrapped in AND. *)
Definition compile_in_order (names : list string) (self : Dict)
  : outcome (option Clause) :=
  frs <- fragments names self ;;
  Returns (Some (AND frs)).

(** The order in which each per-entity filter visits its fields. *)
Definition compile_order (c : Class) : list string :=
  match c with
  | FlowRunFilter =>
      ["id"; "tags"; "deployment_id"; "flow_version"; "state_type";
       "start_time"; "expected_start_time"; "next_scheduled_start_time";
       "parent_task_run_id"]
  | _ => field_names c
  end.

(** The errors a construction reports; none when it succeeds. *)
Definition errors_of {A : Type} (r : outcome A) : list Error :=
  match r with
  | Raises (ValidationError errors) => errors
  | _ => []
  end.

(** The keyword arguments cut down to the declared fields of [c]. *)
Definition declared_part (c : Class) (kwargs : Dict) : Dict :=
  map (fun name => (name, get name kwargs)) (field_names c).

(** A dictionary that holds [None] under every field of [fs]. *)
Definition none_values (fs : list (string * FieldType)) : Dict :=
  map (fun f => (fst f, PNone)) fs.

(** The repeated statement, run over a list of field values. *)
Fixpoint append_all (filters : list Clause) (field_values : list PyVal)
  : outcome (list Clause) :=
  match field_values with
  | [] => Returns filters
  | field :: rest =>
      filters' <- append_filter filters field ;; append_all filters' rest
  end.

(** A flow run filter on state type and flow version, as validation builds
    it. *)
Definition state_and_version_kwargs : Dict :=
  [("state_type", PDict [("any_", PList [StateType "COMPLETED"])]);
   ("flow_version", PDict [("any_", PList [Str "v1"])])].

Definition state_and_version_values : Dict :=
  [("id", PNone); ("tags", PNone); ("deployment_id", PNone);
   ("state_type",
     PModel FlowRunFilterStateType [("any_", PList [StateType "COMPLETED"])]);
   ("flow_version",
     PModel FlowRunFilterFlowVersion [("any_", PList [Str "v1"])]);
   ("start_time", PNone); ("expected_start_time", PNone);
   ("next_scheduled_start_time", PNone); ("parent_task_run_id", PNone)].

(** The supplied limit is outside the range from 0 to [default_limit]. *)
Definition limit_out_of_range (default_limit : Z) (limit_ : option Z) : Prop :=
  match limit_ with
  | Some l => l < 0 \/ default_limit < l
  | None => False
  end.

(** The supplied offset is negative. *)
Definition offset_out_of_range (offset_ : option Z) : Prop :=
  match offset_ with
  | Some o => o < 0
  | None => False
  end.

Definition is_OutOfRange (e : Error) : Prop :=
  match e with
  | OutOfRange _ => True
  | _ => False
  end.

(** The column a clause constrains; a literal or a conjunction constrains
    none. *)
Definition clause_column (p : Clause) : option Column :=
  match p with
  | InOp column _ | NotInOp column _ | EqOp column _ | NeOp column _
  | LeOp column _ | GeOp column _ | BetweenOp column _ _
  | JsonHasAllKeys column _ => Some column
  | Literal _ | And _ => None
  end.

(** A bound of a range filter as it is supplied: a datetime, given by its
    awareness and its count of microseconds, or nothing. *)
Definition opt_datetime (t : option (bool * Z)) : PyVal :=
  match t with
  | Some (aware, x) => PDatetime aware x
  | None => PNone
  end.

(** The errors the root validators raise on [values]. *)
Definition root_errors (values : Dict) : list Error :=
  snd (run_root_validators root_validators values []).

(** ** Proof automation *)

(** Unfolds a construction down to the supplied values, then splits on the
    shape of each value read from the keyword arguments. *)
Ltac unfold_init H :=
  unfold init, init_with, validate_model in H;
  cbn [fields validate_fields] in H.

(** Case analysis on every value that [H] reads from [kwargs]. *)
Ltac split_kwargs H kwargs :=
  repeat match type of H with
         | context [get ?key kwargs] =>
             let E := fresh "Hget" in destruct (get key kwargs) eqn:E
         end.

(** Case analysis on every test left in [H]. *)
Ltac split_tests H :=
  repeat match type of H with
         | context [if ?b then _ else _] =>
             let E := fresh "Htest" in destruct b eqn:E
         end.

(** Runs the construction in [H] to its outcome, case by case. *)
Ltac run_init H kwargs :=
  unfold_init H; split_kwargs H kwargs;
  cbv - [Z.ltb] in H; split_tests H; try discriminate H.

(** Replaces [declares c k], for a known class and key, by its value. *)
Ltac eval_declares :=
  repeat match goal with
         | |- context [declares ?c ?k] =>
             let v := eval vm_compute in (declares c k) in
             change (declares c k) with v
         end.

(** Case analysis on the values a construction in the goal reads from
    [kwargs]. *)
Ltac split_declared kwargs :=
  repeat match goal with
         | |- context [init _ ?d] =>
             match d with
             | context [get ?key kwargs] =>
                 let E := fresh "Hget" in destruct (get key kwargs) eqn:E
             end
         end.

(** Evaluates the reported errors in the goal, splitting on what is left
    open: first the variables, then the comparisons. *)
Ltac eval_errors :=
  repeat match goal with
         | |- context [errors_of ?r] =>
             let v := eval cbv - [Z.ltb] in (errors_of r) in
             change (errors_of r) with v
         end;
  repeat match goal with
         | |- context [if ?b then _ else _] => is_var b; destruct b
         end;
  repeat match goal with
         | |- context [if ?b then _ else _] => destruct b
         end;
  cbn [In].

(** Both directions of an equivalence between membership in an evaluated
    error list and a condition on the supplied values. *)
Ltac solve_conflict :=
  split;
  [ intros H; repeat (destruct H as [H | H]); try discriminate H;
    try contradiction; repeat split; eauto
  | intros H; decompose record H; try congruence; auto ].

(** ** Properties of construction *)

Lemma validate_fields_get sub fs kwargs kwargs' :
  (forall name, In name (map fst fs) -> get name kwargs = get name kwargs') ->
  validate_fields sub fs kwargs = validate_fields sub fs kwargs'.
Proof.
  induction fs as [| [name ty] fs IH]; intros Hget; [reflexivity |].
  cbn [validate_fields].
  rewrite IH by (intros n Hn; apply Hget; right; exact Hn).
  rewrite (Hget name) by (left; reflexivity).
  reflexivity.
Qed.

Lemma init_get c kwargs kwargs' :
  (forall name,
      In name (field_names c) -> get name kwargs = get name kwargs') ->
  init c kwargs = init c kwargs'.
Proof.
  intros Hget. unfold init, init_with, validate_model.
  rewrite (validate_fields_get _ _ _ _ Hget). reflexivity.
Qed.

Lemma get_none_values key fs : get key (none_values fs) = PNone.
Proof.
  induction fs as [| [name ty] fs IH]; [reflexivity |].
  cbn [none_values map fst get].
  destruct (String.eqb key name); [reflexivity | exact IH].
Qed.

Lemma existsb_none_values fs :
  existsb is_not_None (map snd (none_values fs)) = false.
Proof.
  induction fs as [| [name ty] fs IH]; [reflexivity | exact IH].
Qed.

Lemma validate_field_None sub ty : validate_field sub ty PNone = Some PNone.
Proof. destruct ty; reflexivity. Qed.

Lemma validate_fields_all_None sub fs kwargs :
  (forall name, In name (map fst fs) -> get name kwargs = PNone) ->
  validate_fields sub fs kwargs = (none_values fs, []).
Proof.
  induction fs as [| [name ty] fs IH]; intros Hnone; [reflexivity |].
  cbn [validate_fields].
  rewrite IH by (intros n Hn; apply Hnone; right; exact Hn).
  rewrite (Hnone name) by (left; reflexivity).
  rewrite validate_field_None. reflexivity.
Qed.

Lemma later_validators_none_values fs :
  check_all_and_is_null_are_not_both_supplied (none_values fs) =
    inr (none_values fs)
  /\ check_any_and_is_null_are_not_both_supplied (none_values fs) =
    inr (none_values fs)
  /\ check_any_and_is_not_any_are_not_both_supplied (none_values fs) =
    inr (none_values fs)
  /\ check_before_and_after_are_not_mutually_exclusive (none_values fs) =
    inr (none_values fs).
Proof.
  unfold check_all_and_is_null_are_not_both_supplied,
    check_any_and_is_null_are_not_both_supplied,
    check_any_and_is_not_any_are_not_both_supplied,
    check_before_and_after_are_not_mutually_exclusive.
  rewrite !get_none_values. repeat split.
Qed.

Lemma root_validators_none_values fs :
  run_root_validators root_validators (none_values fs) [] =
  (none_values fs, [MissingOperator]).
Proof.
  destruct (later_validators_none_values fs) as (H2 & H3 & H4 & H5).
  unfold root_validators. cbn [run_root_validators].
  unfold check_at_least_one_operator_is_not_none.
  rewrite existsb_none_values. cbn [negb app].
  rewrite H2, H3, H4, H5. reflexivity.
Qed.

(** Construction with no field populated fails, whatever the class: the
    first root validator raises, and it alone. *)
Lemma init_all_None c kwargs :
  (forall name, In name (field_names c) -> get name kwargs = PNone) ->
  init c kwargs = Raises (ValidationError [MissingOperator]).
Proof.
  intros Hnone. unfold init, init_with, validate_model.
  rewrite (validate_fields_all_None _ _ _ Hnone).
  rewrite root_validators_none_values. reflexivity.
Qed.

(** ** Zero populated fields *)

(** C4.  A per-field filter built with every operator attribute absent (or
    None) is rejected, and the one error reported is the missing operator. *)
Theorem leaf_without_operator_rejected (c : Class) (kwargs : Dict) :
  is_leaf c = true ->
  (forall name, In name (field_names c) -> get name kwargs = PNone) ->
  init c kwargs = Raises (ValidationError [MissingOperator]).
Proof.
  intros _ Hnone. apply init_all_None. exact Hnone.
Qed.

Lemma leaf_without_operator_rejected_witness :
  init FlowRunFilterTags [("all_", PNone)] =
  Raises (ValidationError [MissingOperator]).
Proof.
  apply (leaf_without_operator_rejected FlowRunFilterTags [("all_", PNone)]).
  - reflexivity.
  - intros name [<- | [<- | []]]; reflexivity.
Defined.

(** C1, at the failing input.  Constructing a per-entity filter with no field
    does not succeed: the root validator inherited from
    [PrefectFilterBaseModel] raises for want of an operator.  The branch
    that [as_sql_filter] keeps for that very state, run on an instance
    whose fields are all None, returns the constant true. *)
Theorem empty_composite_construction_fails :
  init FlowFilter [] = Raises (ValidationError [MissingOperator])
  /\ init FlowRunFilter [] = Raises (ValidationError [MissingOperator])
  /\ init TaskRunFilter [] = Raises (ValidationError [MissingOperator])
  /\ ~ (exists inst, init FlowFilter [] = Returns inst)
  /\ as_sql_filter (PModel FlowFilter (none_values (fields FlowFilter))) =
     Returns (Some (Literal (PBool true)))
  /\ as_sql_filter (PModel FlowRunFilter (none_values (fields FlowRunFilter)))
     = Returns (Some (Literal (PBool true)))
  /\ as_sql_filter (PModel TaskRunFilter (none_values (fields TaskRunFilter)))
     = Returns (Some (Literal (PBool true))).
Proof.
  repeat split; try reflexivity.
  intros [inst H]. discriminate H.
Qed.

(** ** Compilation of validated per-field filters *)

(** C9.  A per-field filter that passed validation compiles: the call
    returns, and what it returns is a clause, never None. *)
Theorem validated_leaf_compiles (c : Class) (kwargs : Dict) (inst : PyVal) :
  is_leaf c = true ->
  init c kwargs = Returns inst ->
  exists p, as_sql_filter inst = Returns (Some p).
Proof.
  intros Hleaf Hinit.
  destruct c; try discriminate Hleaf; run_init Hinit kwargs;
    injection Hinit as <-; cbv; eexists; reflexivity.
Qed.


Lemma validated_leaf_compiles_witness :
  exists p,
    as_sql_filter (PModel FlowRunFilterParentTaskRunId
                     [("any_", PNone); ("is_null_", PBool false)]) =
    Returns (Some p).
Proof.
  apply (validated_leaf_compiles FlowRunFilterParentTaskRunId
           [("is_null_", PBool false)]).
  - reflexivity.
  - reflexivity.
Defined.

(** ** Mutually exclusive operators *)

Lemma get_declared names kwargs name :
  In name names ->
  get name (map (fun n => (n, get n kwargs)) names) = get name kwargs.
Proof.
  induction names as [| n names IH]; intros Hin; [destruct Hin |].
  cbn [map get]. destruct (String.eqb_spec name n) as [-> | Hne].
  - reflexivity.
  - destruct Hin as [-> | Hin].
    + contradiction Hne. reflexivity.
    + exact (IH Hin).
Qed.

(** Construction reads the keyword arguments through the declared fields
    only. *)
Lemma init_declared_part c kwargs :
  init c kwargs = init c (declared_part c kwargs).
Proof.
  apply init_get. intros name Hin. unfold declared_part.
  symmetry. apply get_declared. exact Hin.
Qed.

(** C2 as stated fails: [all_] (or [any_]) supplied together with
    [is_null_ = False] is accepted. *)
Lemma is_null_false_beside_operator_accepted :
  init FlowFilterTags [("all_", PList [Str "tag-1"]); ("is_null_", PBool false)]
  = Returns (PModel FlowFilterTags
               [("all_", PList [Str "tag-1"]); ("is_null_", PBool false)])
  /\ init FlowRunFilterDeploymentId
       [("any_", PList [UUID 7]); ("is_null_", PBool false)]
     = Returns (PModel FlowRunFilterDeploymentId
                  [("any_", PList [UUID 7]); ("is_null_", PBool false)]).
Proof. split; reflexivity. Qed.

Lemma conflicts_reported (c : Class) (kwargs : Dict) :
  is_leaf c = true ->
  (In (ConflictingOperators "all_" "is_null_") (errors_of (init c kwargs)) <->
   declares c "all_" = true /\ declares c "is_null_" = true /\
   (exists l, get "all_" kwargs = PList l) /\
   get "is_null_" kwargs = PBool true)
  /\
  (In (ConflictingOperators "any_" "is_null_") (errors_of (init c kwargs)) <->
   declares c "any_" = true /\ declares c "is_null_" = true /\
   (exists l, get "any_" kwargs = PList l) /\
   get "is_null_" kwargs = PBool true)
  /\
  (declares c "any_" = true /\ declares c "not_any_" = true /\
   (exists l, get "any_" kwargs = PList l) /\
   (exists x l', get "not_any_" kwargs = PList (x :: l')) ->
   In (ConflictingOperators "any_" "not_any_") (errors_of (init c kwargs)))
  /\
  (In (ConflictingOperators "any_" "not_any_") (errors_of (init c kwargs)) ->
   declares c "any_" = true /\ declares c "not_any_" = true /\
   (exists l, get "any_" kwargs = PList l) /\
   (exists l', get "not_any_" kwargs = PList l')).
Proof.
  intros Hleaf. rewrite init_declared_part.
  destruct c; try discriminate Hleaf; eval_declares;
    cbn [declared_part field_names fields map fst];
    split_declared kwargs; eval_errors;
    (split; [| split; [| split]]);
    first
      [ solve [solve_conflict]
      | solve [intros Hc; decompose record Hc; try congruence; auto]
      | solve [intros H; repeat (destruct H as [H | H]);
               try discriminate H; try contradiction; repeat split; eauto] ].
Qed.

Lemma all_beside_is_null_false (c : Class) (kwargs : Dict) (l : list Scalar) :
  declares c "all_" = true ->
  declares c "is_null_" = true ->
  get "all_" kwargs = PList l ->
  get "is_null_" kwargs = PBool false ->
  init c kwargs =
  Returns (PModel c [("all_", PList l); ("is_null_", PBool false)]).
Proof.
  intros Hall Hnull Hl Hfalse. rewrite init_declared_part.
  destruct c; try discriminate Hall; try discriminate Hnull;
    cbn [declared_part field_names fields map fst];
    rewrite Hl, Hfalse; reflexivity.
Qed.

Lemma any_beside_is_null_false (c : Class) (kwargs : Dict) (l : list Scalar) :
  declares c "any_" = true ->
  declares c "is_null_" = true ->
  get "any_" kwargs = PList l ->
  get "is_null_" kwargs = PBool false ->
  init c kwargs =
  Returns (PModel c [("any_", PList l); ("is_null_", PBool false)]).
Proof.
  intros Hany Hnull Hl Hfalse. rewrite init_declared_part.
  destruct c; try discriminate Hany; try discriminate Hnull;
    cbn [declared_part field_names fields map fst];
    rewrite Hl, Hfalse; reflexivity.
Qed.

(** C2, as the code has it.  Constructing a per-field filter reports the
    conflict of [all_] with [is_null_] exactly when the class declares both,
    [all_] is supplied and [is_null_] is True; likewise for [any_] with
    [is_null_].  It reports the conflict of [any_] with [not_any_] whenever
    [any_] is supplied beside a non-empty [not_any_], and only when both
    are supplied.  Every filter given [all_], or [any_], together with
    [is_null_ = False] is accepted, and holds both. *)
Theorem conflicting_operators_rejected (c : Class) (kwargs : Dict) :
  is_leaf c = true ->
  (In (ConflictingOperators "all_" "is_null_") (errors_of (init c kwargs)) <->
   declares c "all_" = true /\ declares c "is_null_" = true /\
   (exists l, get "all_" kwargs = PList l) /\
   get "is_null_" kwargs = PBool true)
  /\
  (In (ConflictingOperators "any_" "is_null_") (errors_of (init c kwargs)) <->
   declares c "any_" = true /\ declares c "is_null_" = true /\
   (exists l, get "any_" kwargs = PList l) /\
   get "is_null_" kwargs = PBool true)
  /\
  (declares c "any_" = true /\ declares c "not_any_" = true /\
   (exists l, get "any_" kwargs = PList l) /\
   (exists x l', get "not_any_" kwargs = PList (x :: l')) ->
   In (ConflictingOperators "any_" "not_any_") (errors_of (init c kwargs)))
  /\
  (In (ConflictingOperators "any_" "not_any_") (errors_of (init c kwargs)) ->
   declares c "any_" = true /\ declares c "not_any_" = true /\
   (exists l, get "any_" kwargs = PList l) /\
   (exists l', get "not_any_" kwargs = PList l'))
  /\
  (forall l,
      declares c "all_" = true -> declares c "is_null_" = true ->
      get "all_" kwargs = PList l -> get "is_null_" kwargs = PBool false ->
      init c kwargs =
      Returns (PModel c [("all_", PList l); ("is_null_", PBool false)]))
  /\
  (forall l,
      declares c "any_" = true -> declares c "is_null_" = true ->
      get "any_" kwargs = PList l -> get "is_null_" kwargs = PBool false ->
      init c kwargs =
      Returns (PModel c [("any_", PList l); ("is_null_", PBool false)])).
Proof.
  intros Hleaf.
  destruct (conflicts_reported c kwargs Hleaf) as (H1 & H2 & H3 & H4).
  repeat (split; [assumption |]). split.
  - intros l. apply all_beside_is_null_false.
  - intros l. apply any_beside_is_null_false.
Qed.

Lemma conflicting_operators_rejected_witness :
  In (ConflictingOperators "all_" "is_null_")
     (errors_of (init TaskRunFilterTags
                   [("all_", PList [Str "tag-1"]); ("is_null_", PBool true)]))
  /\ init FlowRunFilterParentTaskRunId
       [("is_null_", PBool false); ("any_", PList [UUID 7])] =
     Returns (PModel FlowRunFilterParentTaskRunId
                [("any_", PList [UUID 7]); ("is_null_", PBool false)]).
Proof.
  split.
  - destruct (conflicting_operators_rejected TaskRunFilterTags
                [("all_", PList [Str "tag-1"]); ("is_null_", PBool true)]
                eq_refl) as [[_ H] _].
    apply H. repeat split. exists [Str "tag-1"]. reflexivity.
  - destruct (conflicting_operators_rejected FlowRunFilterParentTaskRunId
                [("is_null_", PBool false); ("any_", PList [UUID 7])]
                eq_refl) as (_ & _ & _ & _ & _ & H).
    apply H; reflexivity.
Defined.

(** What the code does beside: an empty [not_any_] next to [any_] passes
    the validators, and compilation then uses [any_] alone. *)
Example empty_not_any_beside_any :
  init FlowRunFilterId [("any_", PList [UUID 7]); ("not_any_", PList [])]
  = Returns (PModel FlowRunFilterId
               [("any_", PList [UUID 7]); ("not_any_", PList [])])
  /\ as_sql_filter (PModel FlowRunFilterId
                      [("any_", PList [UUID 7]); ("not_any_", PList [])])
     = Returns (Some (IN (Col FlowRun "id") [UUID 7])).
Proof. split; reflexivity. Qed.

(** ** Range filters *)

Lemma init_range c kwargs aware_b b aware_a a :
  is_range c = true ->
  get "before_" kwargs = PDatetime aware_b b ->
  get "after_" kwargs = PDatetime aware_a a ->
  init c kwargs =
  if Bool.eqb aware_b aware_a then
    if b <? a
    then Raises (ValidationError [InvalidRange])
    else Returns (PModel c [("before_", PDatetime aware_b b);
                            ("after_", PDatetime aware_a a)])
  else Raises (ValidationError [ComparisonError]).
Proof.
  intros Hc Hb Ha. rewrite init_declared_part.
  destruct c; try discriminate Hc;
    cbn [declared_part field_names fields map fst];
    rewrite Hb, Ha; destruct aware_b, aware_a; cbv - [Z.ltb];
    try reflexivity; destruct (b <? a); reflexivity.
Qed.

Lemma between_of_bounds c aware_b b aware_a a :
  is_range c = true ->
  as_sql_filter (PModel c [("before_", PDatetime aware_b b);
                           ("after_", PDatetime aware_a a)])
  = Returns (Some (BETWEEN (column c) (PDatetime aware_a a)
                     (PDatetime aware_b b))).
Proof.
  intros Hc. destruct c; try discriminate Hc; reflexivity.
Qed.

(** C5.  With both bounds supplied, a range filter is rejected for its range
    exactly when the comparison [before_ < after_] holds, that is when the
    two bounds compare (both aware or both naive) and [before_] is strictly
    earlier; it is constructed exactly when they compare and [before_] is
    not earlier; a naive bound beside an aware one is rejected for the
    failed comparison.  With equal bounds it is constructed and compiles to
    BETWEEN with the same low and high bound. *)
Theorem range_bounds_checked (c : Class) (kwargs : Dict)
    (aware_b : bool) (b : Z) (aware_a : bool) (a : Z) :
  is_range c = true ->
  get "before_" kwargs = PDatetime aware_b b ->
  get "after_" kwargs = PDatetime aware_a a ->
  (init c kwargs = Raises (ValidationError [InvalidRange]) <->
   aware_b = aware_a /\ b < a)
  /\ ((exists inst, init c kwargs = Returns inst) <->
      aware_b = aware_a /\ a <= b)
  /\ (aware_b <> aware_a ->
      init c kwargs = Raises (ValidationError [ComparisonError]))
  /\ (PDatetime aware_b b = PDatetime aware_a a ->
      exists inst,
        init c kwargs = Returns inst
        /\ as_sql_filter inst =
           Returns (Some (BETWEEN (column c) (PDatetime aware_a a)
                            (PDatetime aware_a a)))).
Proof.
  intros Hc Hb Ha. rewrite (init_range c kwargs _ _ _ _ Hc Hb Ha).
  destruct (Bool.eqb_spec aware_b aware_a) as [Haware | Haware].
  - destruct (Z.ltb_spec b a) as [Hlt | Hge]; (split; [| split; [| split]]).
    + split; [intros _; split; assumption | reflexivity].
    + split; [intros [inst H]; discriminate H | intros [_ Hle]; lia].
    + intros Hne. contradiction.
    + intros Heq. injection Heq as _ ->. lia.
    + split; [intros H; discriminate H | intros [_ Hlt]; lia].
    + split; [intros _; split; assumption | intros _; eexists; reflexivity].
    + intros Hne. contradiction.
    + intros Heq. injection Heq as -> ->. eexists. split; [reflexivity |].
      apply between_of_bounds. exact Hc.
  - split; [| split; [| split]].
    + split; [intros H; discriminate H | intros [Heq _]; contradiction].
    + split; [intros [inst H]; discriminate H
             | intros [Heq _]; contradiction].
    + intros _. reflexivity.
    + intros Heq. injection Heq as Heq _. contradiction.
Qed.

Lemma range_bounds_checked_witness :
  exists inst,
    init FlowRunFilterStartTime
      [("after_", PDatetime true 1000); ("before_", PDatetime true 1000)] =
    Returns inst
    /\ as_sql_filter inst =
       Returns (Some (BETWEEN (Col FlowRun "start_time")
                        (PDatetime true 1000) (PDatetime true 1000))).
Proof.
  destruct (range_bounds_checked FlowRunFilterStartTime
              [("after_", PDatetime true 1000);
               ("before_", PDatetime true 1000)]
              true 1000 true 1000 eq_refl eq_refl eq_refl) as (_ & _ & _ & H).
  exact (H eq_refl).
Defined.

(** A naive bound beside an aware one: the comparison of the validator
    fails, and with it the construction. *)
Example naive_beside_aware_rejected :
  init TaskRunFilterStartTime
    [("before_", PDatetime false 2000); ("after_", PDatetime true 1000)] =
  Raises (ValidationError [ComparisonError]).
Proof. reflexivity. Qed.

(** C6.  A validated range filter compiles to the predicate the
    specification gives for its bounds: BETWEEN(field, after_, before_) with
    both, LE(field, before_) with [before_] alone, GE(field, after_) with
    [after_] alone. *)
Theorem range_filter_compiles (c : Class) (kwargs : Dict) (inst : PyVal) :
  is_range c = true ->
  init c kwargs = Returns inst ->
  as_sql_filter inst =
  Returns (range_predicate (column c)
             (get "before_" kwargs) (get "after_" kwargs))
  /\ range_predicate (column c) (get "before_" kwargs) (get "after_" kwargs)
     <> None.
Proof.
  intros Hc Hinit.
  destruct c; try discriminate Hc; run_init Hinit kwargs;
    injection Hinit as <-; (split; [reflexivity | discriminate]).
Qed.

Lemma range_filter_compiles_witness :
  as_sql_filter (PModel TaskRunFilterStartTime
                   [("before_", PDatetime true 20);
                    ("after_", PDatetime true 10)]) =
  Returns (Some (BETWEEN (Col TaskRun "start_time")
                   (PDatetime true 10) (PDatetime true 20))).
Proof.
  apply (range_filter_compiles TaskRunFilterStartTime
           [("before_", PDatetime true 20); ("after_", PDatetime true 10)]).
  - reflexivity.
  - reflexivity.
Defined.

Example range_predicate_before_only :
  range_predicate (Col TaskRun "start_time") (PDatetime true 20) PNone =
  Some (LE (Col TaskRun "start_time") (PDatetime true 20)).
Proof. reflexivity. Qed.

Example range_predicate_after_only :
  range_predicate (Col TaskRun "start_time") PNone (PDatetime true 10) =
  Some (GE (Col TaskRun "start_time") (PDatetime true 10)).
Proof. reflexivity. Qed.

(** ** Null checks *)

(** C7.  A validated per-field filter that carries [is_null_] alone compiles
    to IS_EMPTY of its field when [is_null_] is True and to IS_NOT_EMPTY
    when it is False.  For the two foreign keys of a flow run the test is a
    comparison of the key column itself with NULL. *)
Theorem is_null_filter_compiles (c : Class) (kwargs : Dict) (inst : PyVal)
    (b : bool) :
  declares c "is_null_" = true ->
  init c kwargs = Returns inst ->
  get "is_null_" kwargs = PBool b ->
  (forall name, In name (field_names c) -> name <> "is_null_" ->
                get name kwargs = PNone) ->
  as_sql_filter inst =
  Returns (Some (if b then IS_EMPTY (column c) else IS_NOT_EMPTY (column c)))
  /\ match c with
     | FlowRunFilterDeploymentId =>
         as_sql_filter inst =
         Returns (Some (if b then EqOp (Col FlowRun "deployment_id") PNone
                        else NeOp (Col FlowRun "deployment_id") PNone))
     | FlowRunFilterParentTaskRunId =>
         as_sql_filter inst =
         Returns (Some (if b then EqOp (Col FlowRun "parent_task_run_id") PNone
                        else NeOp (Col FlowRun "parent_task_run_id") PNone))
     | _ => True
     end.
Proof.
  intros Hc Hinit Hnull Hothers.
  destruct c; try discriminate Hc;
    pose proof (Hothers _ (or_introl eq_refl) ltac:(discriminate)) as Hfirst;
    cbn [fst] in Hfirst;
    unfold_init Hinit; rewrite Hfirst, Hnull in Hinit;
    destruct b; cbv in Hinit; injection Hinit as <-;
    (split; [reflexivity | first [exact I | reflexivity]]).
Qed.

Lemma is_null_filter_compiles_witness :
  as_sql_filter (PModel FlowRunFilterDeploymentId
                   [("any_", PNone); ("is_null_", PBool true)]) =
  Returns (Some (IS_EMPTY (Col FlowRun "deployment_id")))
  /\ as_sql_filter (PModel FlowRunFilterDeploymentId
                      [("any_", PNone); ("is_null_", PBool true)]) =
     Returns (Some (EqOp (Col FlowRun "deployment_id") PNone)).
Proof.
  apply (is_null_filter_compiles FlowRunFilterDeploymentId
           [("is_null_", PBool true)] _ true).
  - reflexivity.
  - reflexivity.
  - reflexivity.
  - intros name [<- | [<- | []]] Hne.
    + reflexivity.
    + contradiction Hne. reflexivity.
Defined.

Example is_null_on_tags :
  as_sql_filter (PModel FlowFilterTags
                   [("all_", PNone); ("is_null_", PBool true)]) =
  Returns (Some (EqOp (Col Flow "tags") (PList [])))
  /\ as_sql_filter (PModel FlowFilterTags
                      [("all_", PNone); ("is_null_", PBool false)]) =
     Returns (Some (NeOp (Col Flow "tags") (PList []))).
Proof. split; reflexivity. Qed.

(** ** Compilation of the per-entity filters *)

Lemma append_all_fragments names self filters :
  append_all filters (map (fun name => get name self) names) =
  (frs <- fragments names self ;; Returns (filters ++ frs)%list).
Proof.
  revert filters.
  induction names as [| name names IH]; intros filters;
    cbn [map append_all fragments].
  - cbn [bind]. rewrite app_nil_r. reflexivity.
  - unfold append_filter.
    destruct (is_not_None (get name self)).
    + destruct (leaf_as_sql_filter (get name self)) as [r | e]; cbn [bind].
      * rewrite IH. destruct (fragments names self) as [frs | e]; cbn [bind].
        -- rewrite <- app_assoc. reflexivity.
        -- reflexivity.
      * reflexivity.
    + cbn [bind]. apply IH.
Qed.

(** C3, at the failing input.  A flow run filter on state type and flow
    version is validated, and [as_sql_filter] puts the fragment of
    [flow_version] before that of [state_type], where the declared field
    order puts [state_type] first. *)
Theorem flow_run_filter_order_not_declared_order :
  init FlowRunFilter state_and_version_kwargs =
  Returns (PModel FlowRunFilter state_and_version_values)
  /\ as_sql_filter (PModel FlowRunFilter state_and_version_values) =
     Returns (Some (AND [IN (Col FlowRun "flow_version") [Str "v1"];
                         IN (Col FlowRun "state_type")
                            [StateType "COMPLETED"]]))
  /\ compile_in_order (field_names FlowRunFilter) state_and_version_values =
     Returns (Some (AND [IN (Col FlowRun "state_type") [StateType "COMPLETED"];
                         IN (Col FlowRun "flow_version") [Str "v1"]]))
  /\ as_sql_filter (PModel FlowRunFilter state_and_version_values) <>
     compile_in_order (field_names FlowRunFilter) state_and_version_values.
Proof.
  repeat split; try reflexivity.
  intros H. discriminate H.
Qed.

(** ** Pagination bounds *)

Section PaginationBounds.

Variable default_limit : Z.

Lemma validate_limit (limit_ : option Z) :
  match validate_conint "limit" (Some 0) (Some default_limit)
          default_limit limit_ with
  | inl l =>
      ~ limit_out_of_range default_limit limit_
      /\ l = match limit_ with Some v => v | None => default_limit end
  | inr e => limit_out_of_range default_limit limit_ /\ e = OutOfRange "limit"
  end.
Proof.
  destruct limit_ as [l |]; cbn [validate_conint limit_out_of_range].
  - unfold conint.
    destruct (Z.leb_spec 0 l), (Z.leb_spec l default_limit);
      cbn [andb]; split; try reflexivity; lia.
  - split; [intros [] | reflexivity].
Qed.

Lemma validate_offset (offset_ : option Z) :
  match validate_conint "offset" (Some 0) None 0 offset_ with
  | inl o =>
      ~ offset_out_of_range offset_
      /\ o = match offset_ with Some v => v | None => 0 end
  | inr e => offset_out_of_range offset_ /\ e = OutOfRange "offset"
  end.
Proof.
  destruct offset_ as [o |]; cbn [validate_conint offset_out_of_range].
  - unfold conint.
    destruct (Z.leb_spec 0 o); cbn [andb]; split; try reflexivity; lia.
  - split; [intros [] | reflexivity].
Qed.

(** C8.  Construction of [Pagination] fails, with out-of-range errors
    only, exactly when the supplied limit is negative or above the
    configured maximum or the supplied offset is negative.  Otherwise it
    succeeds, an absent limit taking the configured default and an absent
    offset taking 0. *)
Theorem Pagination_bounds (limit_ offset_ : option Z) :
  ((exists errors,
       Pagination default_limit limit_ offset_ =
       Raises (ValidationError errors)
       /\ errors <> [] /\ Forall is_OutOfRange errors)
   <-> limit_out_of_range default_limit limit_ \/ offset_out_of_range offset_)
  /\ (Pagination default_limit limit_ offset_ =
      Returns {| limit := match limit_ with
                          | Some l => l
                          | None => default_limit
                          end;
                 offset := match offset_ with Some o => o | None => 0 end |}
      <-> ~ (limit_out_of_range default_limit limit_
             \/ offset_out_of_range offset_)).
Proof.
  unfold Pagination.
  pose proof (validate_limit limit_) as Hl.
  pose proof (validate_offset offset_) as Ho.
  destruct (validate_conint "limit" _ _ _ limit_) as [l | el],
           (validate_conint "offset" _ _ _ offset_) as [o | eo];
    destruct Hl as [Hl ->], Ho as [Ho ->]; split; split.
  - intros (errors & H & _). discriminate H.
  - tauto.
  - tauto.
  - reflexivity.
  - intros _. right. exact Ho.
  - intros _. eexists. split; [reflexivity |].
    split; [discriminate | repeat constructor].
  - intros H. discriminate H.
  - tauto.
  - intros _. left. exact Hl.
  - intros _. eexists. split; [reflexivity |].
    split; [discriminate | repeat constructor].
  - intros H. discriminate H.
  - tauto.
  - intros _. left. exact Hl.
  - intros _. eexists. split; [reflexivity |].
    split; [discriminate | repeat constructor].
  - intros H. discriminate H.
  - tauto.
Qed.

(** C10.  The maximum of the limit is its default: a supplied limit above
    the default is out of range, and the default itself is accepted, with
    the same result as an absent limit. *)
Theorem limit_maximum_is_default (l : Z) (offset_ : option Z) :
  0 <= default_limit ->
  default_limit < l ->
  (exists errors,
      Pagination default_limit (Some l) offset_ =
      Raises (ValidationError errors)
      /\ In (OutOfRange "limit") errors)
  /\ Pagination default_limit (Some default_limit) None =
     Returns {| limit := default_limit; offset := 0 |}
  /\ Pagination default_limit (Some default_limit) offset_ =
     Pagination default_limit None offset_.
Proof.
  intros Hdefault Habove. split; [| split].
  - unfold Pagination.
    pose proof (validate_limit (Some l)) as Hl.
    destruct (validate_conint "limit" _ _ _ (Some l)) as [l' | el].
    + destruct Hl as [Hl _]. contradiction Hl. right. exact Habove.
    + destruct Hl as [_ ->].
      destruct (validate_conint "offset" _ _ _ offset_);
        eexists; (split; [reflexivity | left; reflexivity]).
  - unfold Pagination, validate_conint, conint.
    destruct (Z.leb_spec 0 default_limit); [| lia].
    rewrite Z.leb_refl. reflexivity.
  - unfold Pagination. cbn [validate_conint]. unfold conint.
    destruct (Z.leb_spec 0 default_limit); [| lia].
    rewrite Z.leb_refl. reflexivity.
Qed.

End PaginationBounds.

Lemma limit_maximum_is_default_witness :
  (exists errors,
      Pagination 200 (Some 201) None = Raises (ValidationError errors)
      /\ In (OutOfRange "limit") errors)
  /\ Pagination 200 (Some 200) None = Returns {| limit := 200; offset := 0 |}
  /\ Pagination 200 (Some 200) None = Pagination 200 None None.
Proof.
  apply (limit_maximum_is_default 200 201 None); lia.
Defined.

Example Pagination_defaults :
  Pagination 200 None None = Returns {| limit := 200; offset := 0 |}.
Proof. reflexivity. Qed.

Example Pagination_negative :
  Pagination 200 (Some (-1)) (Some (-1)) =
  Raises (ValidationError [OutOfRange "limit"; OutOfRange "offset"]).
Proof. reflexivity. Qed.

(** ** Further properties of the per-field filters *)

(** X1.  A validated filter that carries [any_] compiles to the membership
    test on its own column, whatever else it carries: [any_] comes first in
    every dispatch. *)
Theorem any_compiles_to_IN (c : Class) (kwargs : Dict) (inst : PyVal)
    (l : list Scalar) :
  declares c "any_" = true ->
  init c kwargs = Returns inst ->
  get "any_" kwargs = PList l ->
  as_sql_filter inst = Returns (Some (IN (column c) l)).
Proof.
  intros Hc Hinit Hany.
  destruct c; try discriminate Hc;
    unfold_init Hinit; rewrite Hany in Hinit; split_kwargs Hinit kwargs;
    cbv in Hinit; split_tests Hinit; try discriminate Hinit;
    injection Hinit as <-; reflexivity.
Qed.

Lemma any_compiles_to_IN_witness :
  as_sql_filter (PModel FlowRunFilterDeploymentId
                   [("any_", PList [UUID 3]); ("is_null_", PBool false)]) =
  Returns (Some (IN (Col FlowRun "deployment_id") [UUID 3])).
Proof.
  apply (any_compiles_to_IN FlowRunFilterDeploymentId
           [("is_null_", PBool false); ("any_", PList [UUID 3])]).
  - reflexivity.
  - reflexivity.
  - reflexivity.
Defined.

(** X2.  A validated tags filter that carries [all_] compiles to the
    superset test on the tags column, also when [is_null_ = False] was
    supplied beside it: the null check is then dropped. *)
Theorem all_compiles_to_SUPERSET (c : Class) (kwargs : Dict) (inst : PyVal)
    (l : list Scalar) :
  declares c "all_" = true ->
  init c kwargs = Returns inst ->
  get "all_" kwargs = PList l ->
  as_sql_filter inst = Returns (Some (SUPERSET (column c) (PList l))).
Proof.
  intros Hc Hinit Hall.
  destruct c; try discriminate Hc;
    unfold_init Hinit; rewrite Hall in Hinit; split_kwargs Hinit kwargs;
    cbv in Hinit; split_tests Hinit; try discriminate Hinit;
    injection Hinit as <-; reflexivity.
Qed.

Lemma all_compiles_to_SUPERSET_witness :
  as_sql_filter (PModel FlowFilterTags
                   [("all_", PList []); ("is_null_", PBool false)]) =
  Returns (Some (SUPERSET (Col Flow "tags") (PList []))).
Proof.
  apply (all_compiles_to_SUPERSET FlowFilterTags
           [("all_", PList []); ("is_null_", PBool false)]).
  - reflexivity.
  - reflexivity.
  - reflexivity.
Defined.

(** X3.  A validated filter that carries [not_any_] and no [any_] compiles
    to the exclusion test on its column. *)
Theorem not_any_compiles_to_NOT_IN (c : Class) (kwargs : Dict) (inst : PyVal)
    (l : list Scalar) :
  declares c "not_any_" = true ->
  init c kwargs = Returns inst ->
  get "any_" kwargs = PNone ->
  get "not_any_" kwargs = PList l ->
  as_sql_filter inst = Returns (Some (NOT_IN (column c) l)).
Proof.
  intros Hc Hinit Hany Hnot.
  destruct c; try discriminate Hc;
    unfold_init Hinit; rewrite Hany, Hnot in Hinit;
    cbv in Hinit; injection Hinit as <-; reflexivity.
Qed.

Lemma not_any_compiles_to_NOT_IN_witness :
  as_sql_filter (PModel FlowRunFilterId
                   [("any_", PNone); ("not_any_", PList [UUID 5; UUID 6])]) =
  Returns (Some (NOT_IN (Col FlowRun "id") [UUID 5; UUID 6])).
Proof.
  apply (not_any_compiles_to_NOT_IN FlowRunFilterId
           [("not_any_", PList [UUID 5; UUID 6])]).
  - reflexivity.
  - reflexivity.
  - reflexivity.
  - reflexivity.
Defined.

(** ** Range filters, all cases *)

(** X5.  A range filter built from its two optional bounds is accepted
    exactly when at least one bound is given and, if both are, the two
    compare (both aware or both naive) and [after_] is not later than
    [before_]; a single bound is never rejected. *)
Theorem range_construction (c : Class) (kwargs : Dict)
    (before after : option (bool * Z)) :
  is_range c = true ->
  get "before_" kwargs = opt_datetime before ->
  get "after_" kwargs = opt_datetime after ->
  (exists inst, init c kwargs = Returns inst) <->
  match before, after with
  | None, None => False
  | Some (aware_b, b), Some (aware_a, a) => aware_b = aware_a /\ a <= b
  | _, _ => True
  end.
Proof.
  intros Hc Hb Ha.
  destruct before as [[aware_b b] |], after as [[aware_a a] |];
    cbn [opt_datetime] in Hb, Ha.
  - rewrite (init_range c kwargs _ _ _ _ Hc Hb Ha).
    destruct (Bool.eqb_spec aware_b aware_a) as [Haware | Haware].
    + destruct (Z.ltb_spec b a) as [Hlt | Hge]; split.
      * intros [inst Hinst]. discriminate Hinst.
      * intros [_ Hle]. lia.
      * intros _. split; assumption.
      * intros _. eexists. reflexivity.
    + split.
      * intros [inst Hinst]. discriminate Hinst.
      * intros [Heq _]. contradiction.
  - rewrite init_declared_part.
    destruct c; try discriminate Hc;
      cbn [declared_part field_names fields map fst]; rewrite Hb, Ha;
      (split; [intros _; exact I | intros _; eexists; reflexivity]).
  - rewrite init_declared_part.
    destruct c; try discriminate Hc;
      cbn [declared_part field_names fields map fst]; rewrite Hb, Ha;
      (split; [intros _; exact I | intros _; eexists; reflexivity]).
  - rewrite init_declared_part.
    destruct c; try discriminate Hc;
      cbn [declared_part field_names fields map fst]; rewrite Hb, Ha;
      (split; [intros [inst Hinst]; discriminate Hinst | intros []]).
Qed.

Lemma range_construction_witness :
  (exists inst,
      init FlowRunFilterExpectedStartTime
        [("before_", PDatetime false 7); ("after_", PDatetime true 3)] =
      Returns inst) <-> false = true /\ 3 <= 7.
Proof.
  apply (range_construction FlowRunFilterExpectedStartTime
           [("before_", PDatetime false 7); ("after_", PDatetime true 3)]
           (Some (false, 7)) (Some (true, 3))).
  - reflexivity.
  - reflexivity.
  - reflexivity.
Defined.

(** ** Keyword arguments *)

Lemma get_Permutation (kwargs kwargs' : Dict) (key : string) :
  Permutation kwargs kwargs' ->
  NoDup (map fst kwargs) ->
  get key kwargs = get key kwargs'.
Proof.
  intros Hperm. induction Hperm as [| [k v] d d' Hperm IH
                                    | [k1 v1] [k2 v2] d
                                    | d d' d'' Hperm1 IH1 Hperm2 IH2];
    intros Hnodup.
  - reflexivity.
  - cbn [get]. inversion Hnodup as [| ? ? _ Hnodup']; subst.
    rewrite (IH Hnodup'). reflexivity.
  - cbn [get map fst] in *.
    destruct (String.eqb_spec key k1) as [E1 | H1],
             (String.eqb_spec key k2) as [E2 | H2]; try reflexivity.
    inversion Hnodup as [| ? ? Hnotin _]; subst.
    contradiction Hnotin. left. reflexivity.
  - rewrite (IH1 Hnodup). apply IH2.
    apply (Permutation_NoDup (Permutation_map fst Hperm1)). exact Hnodup.
Qed.

(** X6.  Construction does not depend on the order in which the keyword
    arguments are given (a mapping holds each key once). *)
Theorem init_order_independent (c : Class) (kwargs kwargs' : Dict) :
  Permutation kwargs kwargs' ->
  NoDup (map fst kwargs) ->
  init c kwargs = init c kwargs'.
Proof.
  intros Hperm Hnodup. apply init_get.
  intros name _. apply get_Permutation; assumption.
Qed.

Lemma init_order_independent_witness :
  init FlowRunFilterStartTime
    [("before_", PDatetime true 9); ("after_", PDatetime true 4)] =
  init FlowRunFilterStartTime
    [("after_", PDatetime true 4); ("before_", PDatetime true 9)].
Proof.
  apply init_order_independent.
  - apply perm_swap.
  - repeat constructor; cbn; intuition discriminate.
Defined.

(** ** Columns *)

(** X7.  Within a per-entity filter, the filter held by a field compiles,
    once validated, to a test on the column of that name in the table of
    the entity: no filter reaches into another field or another entity. *)
Theorem field_filter_constrains_own_column (c : Class) (field : string)
    (lc : Class) (kwargs : Dict) (inst : PyVal) :
  In (field, Model_ lc) (fields c) ->
  init lc kwargs = Returns inst ->
  exists p,
    as_sql_filter inst = Returns (Some p)
    /\ clause_column p = Some (Col (entity c) field).
Proof.
  intros Hfield Hinit.
  destruct c; cbn [fields In] in Hfield;
    repeat (destruct Hfield as [Hfield | Hfield];
            [first [discriminate Hfield | injection Hfield as <- <-] |]);
    try contradiction;
    run_init Hinit kwargs; injection Hinit as <-;
    repeat match goal with b : bool |- _ => destruct b end;
    cbv; eexists; (split; reflexivity).
Qed.

Lemma field_filter_constrains_own_column_witness :
  exists p,
    as_sql_filter (PModel FlowRunFilterParentTaskRunId
                     [("any_", PNone); ("is_null_", PBool true)]) =
    Returns (Some p)
    /\ clause_column p = Some (Col FlowRun "parent_task_run_id").
Proof.
  apply (field_filter_constrains_own_column FlowRunFilter
           "parent_task_run_id" FlowRunFilterParentTaskRunId
           [("is_null_", PBool true)]).
  - cbn. tauto.
  - reflexivity.
Defined.

(** ** Pagination, the constructed value *)

(** X8.  Every constructed [Pagination] has a non-negative offset and a
    limit of at most the configured default; a limit that was supplied is
    non-negative too. *)
Theorem Pagination_invariant (default_limit : Z) (limit_ offset_ : option Z)
    (p : PaginationModel) :
  Pagination default_limit limit_ offset_ = Returns p ->
  0 <= offset p
  /\ limit p <= default_limit
  /\ (limit_ <> None -> 0 <= limit p).
Proof.
  unfold Pagination. intros H.
  pose proof (validate_limit default_limit limit_) as Hl.
  pose proof (validate_offset offset_) as Ho.
  destruct (validate_conint "limit" _ _ _ limit_) as [l | el],
           (validate_conint "offset" _ _ _ offset_) as [o | eo];
    try discriminate H.
  injection H as <-. cbn [limit offset].
  destruct Hl as [Hl ->], Ho as [Ho ->].
  destruct limit_ as [l |], offset_ as [o |];
    cbn [limit_out_of_range offset_out_of_range] in Hl, Ho;
    repeat split; try lia; intros Hsome; try lia; contradiction Hsome;
    reflexivity.
Qed.

Lemma Pagination_invariant_witness :
  0 <= offset {| limit := 50; offset := 15 |}
  /\ limit {| limit := 50; offset := 15 |} <= 200
  /\ (Some 50 <> None -> 0 <= limit {| limit := 50; offset := 15 |}).
Proof.
  apply (Pagination_invariant 200 (Some 50) (Some 15)
           {| limit := 50; offset := 15 |}).
  reflexivity.
Defined.

(** ** Construction, field by field *)

Lemma run_checks (vs : list (Dict -> Error + Dict)) :
  Forall (fun v => forall values,
              v values = inr values \/ exists e, v values = inl e) vs ->
  forall values errors,
    run_root_validators vs values errors =
    (values, (errors ++ snd (run_root_validators vs values []))%list).
Proof.
  induction 1 as [| v vs Hv _ IH]; intros values errors;
    cbn [run_root_validators].
  - rewrite app_nil_r. reflexivity.
  - destruct (Hv values) as [-> | [e ->]].
    + apply IH.
    + rewrite IH. rewrite (IH values ([] ++ [e])%list).
      cbn [snd app]. rewrite <- app_assoc. reflexivity.
Qed.

Lemma root_validators_are_checks :
  Forall (fun v => forall values,
              v values = inr values \/ exists e, v values = inl e)
         root_validators.
Proof.
  unfold root_validators.
  repeat (apply Forall_cons; [intros values |]); [.. | apply Forall_nil].
  - unfold check_at_least_one_operator_is_not_none.
    destruct (negb _); eauto.
  - unfold check_all_and_is_null_are_not_both_supplied.
    destruct (_ && _); eauto.
  - unfold check_any_and_is_null_are_not_both_supplied.
    destruct (_ && _); eauto.
  - unfold check_any_and_is_not_any_are_not_both_supplied.
    destruct (_ && _); eauto.
  - unfold check_before_and_after_are_not_mutually_exclusive.
    destruct (_ && _); [destruct (py_lt _ _) as [[|] |] |]; eauto.
Qed.

(** Construction in one formula: the field errors, then the errors of the
    root validators on the surviving values, which they leave as they
    are. *)
Lemma init_with_errors sub c kwargs :
  init_with sub c kwargs =
  match (snd (validate_fields sub (fields c) kwargs)
         ++ root_errors (fst (validate_fields sub (fields c) kwargs)))%list
  with
  | [] => Returns (PModel c (fst (validate_fields sub (fields c) kwargs)))
  | errors => Raises (ValidationError errors)
  end.
Proof.
  unfold init_with, validate_model, root_errors.
  destruct (validate_fields sub (fields c) kwargs) as [values errors].
  rewrite (run_checks _ root_validators_are_checks). cbn [fst snd].
  destruct (errors ++ _)%list; reflexivity.
Qed.

Lemma init_Returns sub c kwargs inst :
  init_with sub c kwargs = Returns inst ->
  validate_fields sub (fields c) kwargs =
    (fst (validate_fields sub (fields c) kwargs), [])
  /\ root_errors (fst (validate_fields sub (fields c) kwargs)) = []
  /\ inst = PModel c (fst (validate_fields sub (fields c) kwargs)).
Proof.
  rewrite init_with_errors.
  destruct (validate_fields sub (fields c) kwargs) as [values errors].
  cbn [fst snd].
  destruct errors as [| e errors]; [| intros H; discriminate H].
  cbn [app]. destruct (root_errors values); intros H; [| discriminate H].
  injection H as <-. repeat split.
Qed.

Lemma validate_fields_Forall2 sub fs kwargs values :
  validate_fields sub fs kwargs = (values, []) ->
  Forall2 (fun f kv =>
             fst kv = fst f
             /\ validate_field sub (snd f) (get (fst f) kwargs) =
                Some (snd kv))
          fs values.
Proof.
  revert values. induction fs as [| [name ty] fs IH]; intros values H;
    cbn [validate_fields] in H.
  - injection H as <-. constructor.
  - destruct (validate_fields sub fs kwargs) as [vs es].
    destruct (validate_field sub ty (get name kwargs)) as [v |] eqn:Hv;
      [| discriminate H].
    injection H as <- ->. constructor.
    + split; [reflexivity | exact Hv].
    + apply IH. reflexivity.
Qed.

Lemma validate_fields_errors sub fs kwargs e :
  In e (snd (validate_fields sub fs kwargs)) <->
  exists f, In f fs
            /\ validate_field sub (snd f) (get (fst f) kwargs) = None
            /\ e = FieldError (fst f).
Proof.
  induction fs as [| [name ty] fs IH]; cbn [validate_fields].
  - split; [intros [] | intros (f & [] & _)].
  - destruct (validate_fields sub fs kwargs) as [vs es]. cbn [snd] in IH.
    destruct (validate_field sub ty (get name kwargs)) as [v |] eqn:Hv;
      cbn [snd].
    + rewrite IH. split.
      * intros (f & Hin & Hf). exists f. split; [right; exact Hin | exact Hf].
      * intros (f & [<- | Hin] & Hnone & He).
        -- cbn [fst snd] in Hnone. congruence.
        -- exists f. repeat split; assumption.
    + cbn [In]. rewrite IH. split.
      * intros [<- | (f & Hin & Hf)].
        -- exists (name, ty). repeat split; [left; reflexivity | exact Hv].
        -- exists f. split; [right; exact Hin | exact Hf].
      * intros (f & [<- | Hin] & Hnone & He).
        -- left. symmetry. exact He.
        -- right. exists f. repeat split; assumption.
Qed.

Lemma get_not_key key (values : Dict) :
  ~ In key (map fst values) -> get key values = PNone.
Proof.
  induction values as [| [k v] values IH]; intros Hnotin; [reflexivity |].
  cbn [get]. destruct (String.eqb_spec key k) as [-> | Hne].
  - contradiction Hnotin. left. reflexivity.
  - apply IH. intros Hin. apply Hnotin. right. exact Hin.
Qed.

Lemma Forall2_keys sub fs kwargs values :
  Forall2 (fun f kv =>
             fst kv = fst f
             /\ validate_field sub (snd f) (get (fst f) kwargs) =
                Some (snd kv))
          fs values ->
  map fst values = map fst fs.
Proof.
  induction 1 as [| f kv fs values [Hk _] _ IH]; [reflexivity |].
  cbn [map]. rewrite Hk, IH. reflexivity.
Qed.

Lemma Forall2_get sub fs kwargs values f :
  Forall2 (fun f kv =>
             fst kv = fst f
             /\ validate_field sub (snd f) (get (fst f) kwargs) =
                Some (snd kv))
          fs values ->
  NoDup (map fst fs) ->
  In f fs ->
  validate_field sub (snd f) (get (fst f) kwargs) =
  Some (get (fst f) values).
Proof.
  induction 1 as [| f' [k v] fs values [Hk Hv] Hrest IH];
    intros Hnodup Hin; [destruct Hin |].
  cbn [fst snd] in Hk, Hv. subst k. cbn [map] in Hnodup.
  inversion Hnodup as [| ? ? Hnotin Hnodup']; subst.
  cbn [get]. destruct Hin as [<- | Hin].
  - rewrite String.eqb_refl. exact Hv.
  - destruct (String.eqb_spec (fst f) (fst f')) as [Heq | _].
    + contradiction Hnotin. rewrite <- Heq. apply in_map. exact Hin.
    + apply IH; assumption.
Qed.

Lemma NoDup_field_names c : NoDup (field_names c).
Proof.
  destruct c; cbn; repeat constructor; cbn; intuition discriminate.
Qed.

(** ** Validating again *)

Lemma Class_beq_refl c : Class_beq c c = true.
Proof. destruct c; reflexivity. Qed.

Lemma validate_submodel_idem c v v' :
  validate_submodel c v = Some v' -> validate_submodel c v' = Some v'.
Proof.
  destruct v as [| b | l | t | items | c0 values]; cbn [validate_submodel];
    try discriminate.
  - destruct (init_leaf c items) as [inst | e] eqn:Hinit; [| discriminate].
    intros H. injection H as <-.
    apply init_Returns in Hinit. destruct Hinit as (_ & _ & ->).
    cbn [validate_submodel]. rewrite Class_beq_refl. reflexivity.
  - destruct (Class_beq c c0) eqn:Hc.
    + intros H. injection H as <-.
      cbn [validate_submodel]. rewrite Hc. reflexivity.
    + destruct (init_leaf c values) as [inst | e] eqn:Hinit; [| discriminate].
      intros H. injection H as <-.
      apply init_Returns in Hinit. destruct Hinit as (_ & _ & ->).
      cbn [validate_submodel]. rewrite Class_beq_refl. reflexivity.
Qed.

Lemma validate_field_idem sub ty x v :
  (forall c a b, sub c a = Some b -> sub c b = Some b) ->
  validate_field sub ty x = Some v ->
  validate_field sub ty v = Some v.
Proof.
  intros Hsub H.
  destruct x, ty; cbn [validate_field] in H; try discriminate H;
    try (injection H as <-; reflexivity);
    destruct v; try reflexivity; cbn [validate_field];
    eapply Hsub; exact H.
Qed.

Lemma validate_fields_idem sub fs kwargs values :
  (forall c a b, sub c a = Some b -> sub c b = Some b) ->
  NoDup (map fst fs) ->
  validate_fields sub fs kwargs = (values, []) ->
  validate_fields sub fs values = (values, []).
Proof.
  intros Hsub. revert values.
  induction fs as [| [name ty] fs IH]; intros values Hnodup H;
    cbn [validate_fields] in *.
  - exact H.
  - destruct (validate_fields sub fs kwargs) as [vs es].
    destruct (validate_field sub ty (get name kwargs)) as [v |] eqn:Hv;
      [| discriminate H].
    injection H as <- ->.
    cbn [map fst] in Hnodup.
    inversion Hnodup as [| ? ? Hnotin Hnodup']; subst.
    rewrite (validate_fields_get sub fs ((name, v) :: vs) vs).
    + rewrite (IH vs Hnodup' eq_refl).
      cbn [get]. rewrite String.eqb_refl.
      rewrite (validate_field_idem _ _ _ _ Hsub Hv). reflexivity.
    + intros n Hn. cbn [get].
      destruct (String.eqb_spec n name) as [-> | _];
        [contradiction | reflexivity].
Qed.

(** X9.  Validation is idempotent: the fields of a validated filter, given
    back to the constructor of its class, are accepted and give the same
    filter.  This holds for the per-field and the per-entity filters. *)
Theorem revalidation (c : Class) (kwargs : Dict) (inst : PyVal) :
  init c kwargs = Returns inst ->
  exists values, inst = PModel c values /\ init c values = Returns inst.
Proof.
  intros Hinit. apply init_Returns in Hinit.
  destruct Hinit as (Hfields & Hroot & ->).
  eexists. split; [reflexivity |].
  unfold init. rewrite init_with_errors.
  rewrite (validate_fields_idem _ _ _ _ validate_submodel_idem
             (NoDup_field_names c) Hfields).
  cbn [fst snd app]. rewrite Hroot. reflexivity.
Qed.

Lemma revalidation_witness :
  exists values,
    PModel FlowFilter
      [("id", PNone); ("name", PNone);
       ("tags", PModel FlowFilterTags
                  [("all_", PNone); ("is_null_", PBool true)])] =
    PModel FlowFilter values
    /\ init FlowFilter values =
       Returns (PModel FlowFilter
                  [("id", PNone); ("name", PNone);
                   ("tags", PModel FlowFilterTags
                              [("all_", PNone); ("is_null_", PBool true)])]).
Proof.
  apply (revalidation FlowFilter
           [("tags", PDict [("is_null_", PBool true)])]).
  reflexivity.
Defined.

(** ** Construction of the per-entity filters *)

Lemma composite_fields c :
  is_composite c = true ->
  Forall (fun f => exists lc,
              snd f = Model_ lc /\ is_leaf lc = true
              /\ column lc = Col (entity c) (fst f))
         (fields c).
Proof.
  intros Hc. destruct c; try discriminate Hc; cbn [fields];
    repeat (apply Forall_cons; [eexists; repeat split |]);
    apply Forall_nil.
Qed.

Lemma model_field_is_leaf c name lc :
  In (name, Model_ lc) (fields c) ->
  is_composite c = true /\ is_leaf lc = true.
Proof.
  intros Hin.
  destruct c; cbn [fields In] in Hin;
    repeat (destruct Hin as [Hin | Hin];
            [first [discriminate Hin | injection Hin as <- <-] |]);
    try contradiction; split; reflexivity.
Qed.

Lemma validate_fields_no_model sub sub' fs kwargs :
  Forall (fun f => forall c, snd f <> Model_ c) fs ->
  validate_fields sub fs kwargs = validate_fields sub' fs kwargs.
Proof.
  induction 1 as [| [name ty] fs Hty _ IH]; [reflexivity |].
  cbn [validate_fields]. rewrite IH.
  replace (validate_field sub ty (get name kwargs))
    with (validate_field sub' ty (get name kwargs)); [reflexivity |].
  cbn [snd] in Hty.
  destruct (get name kwargs), ty; try reflexivity;
    exfalso; eapply Hty; reflexivity.
Qed.

Lemma leaf_fields c :
  is_leaf c = true ->
  Forall (fun f => forall c', snd f <> Model_ c') (fields c).
Proof.
  intros Hc. destruct c; try discriminate Hc; cbn [fields];
    repeat (apply Forall_cons; [intros c'; discriminate |]);
    apply Forall_nil.
Qed.

(** Both constructors agree on the per-field filters. *)
Lemma init_leaf_init c kwargs :
  is_leaf c = true -> init_leaf c kwargs = init c kwargs.
Proof.
  intros Hc. unfold init_leaf, init, init_with, validate_model.
  rewrite (validate_fields_no_model _ validate_submodel _ _ (leaf_fields c Hc)).
  reflexivity.
Qed.

Lemma composite_has_no_operator_field c key :
  is_composite c = true ->
  In key ["all_"; "is_null_"; "any_"; "not_any_"; "before_"; "after_"] ->
  ~ In key (field_names c).
Proof.
  intros Hc Hkey Hin.
  destruct c; try discriminate Hc; cbn in Hkey, Hin;
    intuition (subst; discriminate).
Qed.

Lemma root_errors_no_operator values :
  get "all_" values = PNone ->
  get "any_" values = PNone ->
  get "before_" values = PNone ->
  root_errors values =
  if existsb is_not_None (map snd values) then [] else [MissingOperator].
Proof.
  intros Hall Hany Hbefore.
  unfold root_errors, root_validators. cbn [run_root_validators].
  unfold check_at_least_one_operator_is_not_none.
  destruct (existsb is_not_None (map snd values)); cbn [negb];
    unfold check_all_and_is_null_are_not_both_supplied;
    rewrite Hall; cbn [is_not_None andb];
    unfold check_any_and_is_null_are_not_both_supplied;
    rewrite Hany; cbn [is_not_None andb];
    unfold check_any_and_is_not_any_are_not_both_supplied;
    rewrite Hany; cbn [is_not_None andb];
    unfold check_before_and_after_are_not_mutually_exclusive;
    rewrite Hbefore; reflexivity.
Qed.

Lemma composite_root_errors c sub kwargs values :
  is_composite c = true ->
  validate_fields sub (fields c) kwargs = (values, []) ->
  root_errors values =
  if existsb is_not_None (map snd values) then [] else [MissingOperator].
Proof.
  intros Hc Hfields.
  pose proof (Forall2_keys _ _ _ _ (validate_fields_Forall2 _ _ _ _ Hfields))
    as Hkeys.
  apply root_errors_no_operator; apply get_not_key; rewrite Hkeys;
    apply (composite_has_no_operator_field c _ Hc); cbn; tauto.
Qed.

Lemma Forall2_In_r {A B : Type} (R : A -> B -> Prop) l l' y :
  Forall2 R l l' -> In y l' -> exists x, In x l /\ R x y.
Proof.
  induction 1 as [| x y' l l' Hxy _ IH]; intros Hin; [destruct Hin |].
  destruct Hin as [<- | Hin].
  - exists x. split; [left; reflexivity | exact Hxy].
  - destruct (IH Hin) as (x' & Hx' & Hr). exists x'.
    split; [right; exact Hx' | exact Hr].
Qed.

Lemma get_In key (values : Dict) :
  get key values <> PNone -> In (get key values) (map snd values).
Proof.
  induction values as [| [k v] values IH]; cbn [get map snd];
    intros Hsome.
  - contradiction Hsome. reflexivity.
  - destruct (String.eqb key k); [left; reflexivity | right; exact (IH Hsome)].
Qed.

(** What field validation does with a raw mapping given for a field that
    holds a per-field filter of class [lc]. *)
Lemma validate_raw_field lc items :
  is_leaf lc = true ->
  validate_field validate_submodel (Model_ lc) (PDict items) =
  match init lc items with
  | Returns inst => Some inst
  | Raises _ => None
  end.
Proof.
  intros Hlc. cbn [validate_field validate_submodel].
  rewrite (init_leaf_init lc items Hlc). reflexivity.
Qed.

(** X10.  A per-entity filter given raw mappings is accepted exactly when
    every mapping it is given validates as the filter of its field and at
    least one field is given: the per-entity level adds no other rule. *)
Theorem composite_construction (c : Class) (kwargs : Dict) :
  is_composite c = true ->
  (forall name, In name (field_names c) ->
                get name kwargs = PNone
                \/ exists items, get name kwargs = PDict items) ->
  (exists inst, init c kwargs = Returns inst) <->
  (forall name lc items,
      In (name, Model_ lc) (fields c) ->
      get name kwargs = PDict items ->
      exists v, init lc items = Returns v)
  /\ (exists name, In name (field_names c) /\ get name kwargs <> PNone).
Proof.
  intros Hc Hraw. pose proof (composite_fields c Hc) as Hmodels.
  rewrite Forall_forall in Hmodels. split.
  - intros [inst Hinit]. apply init_Returns in Hinit.
    destruct Hinit as (Hfields & Hroot & _).
    set (values := fst (validate_fields validate_submodel (fields c) kwargs))
      in *.
    pose proof (validate_fields_Forall2 _ _ _ _ Hfields) as Hrel. split.
    + intros name lc items Hin Hitems.
      pose proof (Forall2_get _ _ _ _ _ Hrel (NoDup_field_names c) Hin) as Hv.
      cbn [fst snd] in Hv. rewrite Hitems in Hv.
      destruct (model_field_is_leaf _ _ _ Hin) as [_ Hlc].
      rewrite (validate_raw_field lc items Hlc) in Hv.
      destruct (init lc items) as [v | e]; [| discriminate Hv].
      exists v. reflexivity.
    + rewrite (composite_root_errors c _ _ _ Hc Hfields) in Hroot.
      destruct (existsb is_not_None (map snd values)) eqn:Hsome;
        [| discriminate Hroot].
      apply existsb_exists in Hsome. destruct Hsome as (x & Hx & Hnot).
      apply in_map_iff in Hx. destruct Hx as (kv & <- & Hkv).
      destruct (Forall2_In_r _ _ _ _ Hrel Hkv) as (f & Hf & _ & Hval).
      exists (fst f). split; [apply in_map; exact Hf |].
      intros Hnone. rewrite Hnone, validate_field_None in Hval.
      injection Hval as Hval. rewrite <- Hval in Hnot. discriminate Hnot.
  - intros [Hleaves (name & Hname & Hgiven)].
    assert (Hok : forall f, In f (fields c) ->
                  validate_field validate_submodel (snd f)
                    (get (fst f) kwargs) <> None).
    { intros [n ty] Hf. cbn [fst snd].
      destruct (Hmodels _ Hf) as (lc & Hty & Hlc & _). cbn [snd] in Hty.
      subst ty.
      destruct (Hraw n (in_map fst _ _ Hf)) as [-> | [items Hitems]].
      - rewrite validate_field_None. discriminate.
      - rewrite Hitems, (validate_raw_field lc items Hlc).
        destruct (Hleaves n lc items Hf Hitems) as [v ->]. discriminate. }
    assert (Hfields : validate_fields validate_submodel (fields c) kwargs =
                      (fst (validate_fields validate_submodel (fields c)
                              kwargs), [])).
    { destruct (validate_fields validate_submodel (fields c) kwargs)
        as [values errors] eqn:Hvf. cbn [fst].
      destruct errors as [| e errors]; [reflexivity |].
      assert (He : In e (snd (validate_fields validate_submodel (fields c)
                                kwargs)))
        by (rewrite Hvf; left; reflexivity).
      apply validate_fields_errors in He.
      destruct He as (f & Hf & Hnone & _).
      contradiction (Hok f Hf). }
    set (values := fst (validate_fields validate_submodel (fields c) kwargs))
      in *.
    pose proof (validate_fields_Forall2 _ _ _ _ Hfields) as Hrel.
    apply in_map_iff in Hname. destruct Hname as ([n ty] & Hn & Hf).
    cbn [fst] in Hn. subst n.
    pose proof (Forall2_get _ _ _ _ _ Hrel (NoDup_field_names c) Hf) as Hv.
    cbn [fst snd] in Hv.
    assert (Hpop : get name values <> PNone).
    { destruct (Hmodels _ Hf) as (lc & Hty & Hlc & _). cbn [snd] in Hty.
      subst ty.
      destruct (Hraw name (in_map fst _ _ Hf)) as [Hnone | [items Hitems]];
        [contradiction |].
      rewrite Hitems, (validate_raw_field lc items Hlc) in Hv.
      destruct (init lc items) as [v | e] eqn:Hinit; [| discriminate Hv].
      injection Hv as <-. apply init_Returns in Hinit.
      destruct Hinit as (_ & _ & ->). discriminate. }
    unfold init. rewrite init_with_errors. fold values. rewrite Hfields.
    cbn [fst snd app].
    rewrite (composite_root_errors c _ _ _ Hc Hfields).
    replace (existsb is_not_None (map snd values)) with true.
    + eexists. reflexivity.
    + symmetry. apply existsb_exists. exists (get name values).
      split; [apply get_In; exact Hpop |].
      destruct (get name values); [contradiction Hpop |..]; reflexivity.
Qed.

Lemma composite_construction_witness :
  exists inst,
    init TaskRunFilter [("id", PDict [("any_", PList [UUID 1])])] =
    Returns inst.
Proof.
  apply (composite_construction TaskRunFilter
           [("id", PDict [("any_", PList [UUID 1])])]).
  - reflexivity.
  - intros name [<- | [<- | [<- | [<- | []]]]];
      [right; eexists; reflexivity | left; reflexivity ..].
  - split.
    + intros name lc items Hin Hitems.
      cbn [fields In] in Hin.
      repeat (destruct Hin as [Hin | Hin];
              [injection Hin as <- <-;
               first [discriminate Hitems
                     | injection Hitems as <-; eexists; reflexivity] |]).
      destruct Hin.
    + exists "id". split; [left; reflexivity | discriminate].
Defined.

(** X11.  A violation inside a field is never dropped: when the mapping
    given for a field is rejected as the filter of that field, the
    per-entity filter is rejected too and reports that field. *)
Theorem field_error_propagates (c : Class) (kwargs : Dict) (name : string)
    (lc : Class) (items : Dict) (e : Exn) :
  In (name, Model_ lc) (fields c) ->
  get name kwargs = PDict items ->
  init lc items = Raises e ->
  In (FieldError name) (errors_of (init c kwargs))
  /\ forall inst, init c kwargs <> Returns inst.
Proof.
  intros Hin Hitems Hleaf.
  destruct (model_field_is_leaf _ _ _ Hin) as [_ Hlc].
  assert (Herr : In (FieldError name)
                    (snd (validate_fields validate_submodel (fields c)
                            kwargs))).
  { apply validate_fields_errors. exists (name, Model_ lc).
    cbn [fst snd]. repeat split; [exact Hin |].
    rewrite Hitems, (validate_raw_field lc items Hlc), Hleaf. reflexivity. }
  unfold init. rewrite init_with_errors.
  destruct (validate_fields validate_submodel (fields c) kwargs)
    as [values errors]. cbn [fst snd] in *.
  destruct errors as [| e0 errors]; [destruct Herr |].
  cbn [app errors_of]. split.
  - change (In (FieldError name) ((e0 :: errors) ++ root_errors values)).
    apply in_or_app. left. exact Herr.
  - intros inst H. discriminate H.
Qed.

Lemma field_error_propagates_witness :
  In (FieldError "start_time")
     (errors_of (init TaskRunFilter
                   [("start_time",
                      PDict [("before_", PDatetime true 1);
                             ("after_", PDatetime true 2)])]))
  /\ forall inst,
       init TaskRunFilter
         [("start_time",
            PDict [("before_", PDatetime true 1);
                   ("after_", PDatetime true 2)])] <>
       Returns inst.
Proof.
  apply (field_error_propagates TaskRunFilter _ "start_time"
           TaskRunFilterStartTime
           [("before_", PDatetime true 1); ("after_", PDatetime true 2)]
           (ValidationError [InvalidRange])).
  - cbn. tauto.
  - reflexivity.
  - reflexivity.
Defined.

(** ** Compilation of validated per-entity filters *)



Lemma composite_chain c self :
  is_composite c = true ->
  as_sql_filter (PModel c self) =
  (frs <- fragments (compile_order c) self ;;
   Returns (Some (and_filters frs))).
Proof.
  intros Hc.
  transitivity
    (filters <- append_all []
                  (map (fun name => get name self) (compile_order c)) ;;
     Returns (Some (and_filters filters))).
  - destruct c; try discriminate Hc; cbn [as_sql_filter];
      unfold FlowFilter_as_sql_filter, FlowRunFilter_as_sql_filter,
        TaskRunFilter_as_sql_filter;
      cbn [compile_order field_names fields map fst append_all];
      repeat match goal with
             | |- context [append_filter ?fs ?v] =>
                 destruct (append_filter fs v); cbn [bind]; try reflexivity
             end.
  - rewrite append_all_fragments.
    destruct (fragments (compile_order c) self); reflexivity.
Qed.







(** One field given: the call returns the test of that field itself. *)
Example single_field_is_not_wrapped :
  as_sql_filter
    (PModel TaskRunFilter
       [("id", PModel TaskRunFilterId [("any_", PList [UUID 1])]);
        ("tags", PNone); ("state_type", PNone); ("start_time", PNone)]) =
  Returns (Some (IN (Col TaskRun "id") [UUID 1])).
Proof. reflexivity. Qed.

(** ** The order of the fragments *)

Lemma fragments_swap prefix x y rest self frs :
  fragments (prefix ++ x :: y :: rest)%list self = Returns frs ->
  exists frs',
    fragments (prefix ++ y :: x :: rest)%list self = Returns frs'
    /\ Permutation frs frs'.
Proof.
  revert frs. induction prefix as [| n prefix IH]; intros frs;
    cbn [app fragments].
  - destruct (is_not_None (get x self)), (is_not_None (get y self));
      try (intros H; eexists; split; [exact H | apply Permutation_refl]).
    destruct (leaf_as_sql_filter (get x self)) as [rx | ex];
      destruct (leaf_as_sql_filter (get y self)) as [ry | ey];
      cbn [bind]; try (intros H; discriminate H).
    destruct (fragments rest self) as [frs0 | e]; cbn [bind];
      intros H; [| discriminate H].
    injection H as <-. eexists. split; [reflexivity | apply perm_swap].
  - destruct (is_not_None (get n self)); [| apply IH].
    destruct (leaf_as_sql_filter (get n self)) as [rn | en]; cbn [bind];
      [| intros H; discriminate H].
    destruct (fragments (prefix ++ x :: y :: rest) self) as [frs0 | e]
      eqn:Hrest; cbn [bind]; intros H; [| discriminate H].
    injection H as <-.
    destruct (IH frs0 eq_refl) as (frs' & -> & Hperm). cbn [bind].
    eexists. split; [reflexivity | apply perm_skip; exact Hperm].
Qed.

(** X13.  The order in which [as_sql_filter] collects the fragments loses
    and adds nothing against the declared field order: whatever a
    per-entity filter compiles to is what the closing expression of the
    method makes of a rearrangement of the fragments collected in declared
    order. *)
Theorem compiled_children_as_in_declared_order (c : Class) (self : Dict)
    (p : Clause) :
  is_composite c = true ->
  as_sql_filter (PModel c self) = Returns (Some p) ->
  exists frs frs',
    p = and_filters frs
    /\ fragments (field_names c) self = Returns frs'
    /\ Permutation frs frs'.
Proof.
  intros Hc H. rewrite (composite_chain c self Hc) in H.
  destruct (fragments (compile_order c) self) as [frs |] eqn:Hfrs;
    cbn [bind] in H; [| discriminate H].
  injection H as <-.
  assert (Hdeclared : exists frs',
             fragments (field_names c) self = Returns frs'
             /\ Permutation frs frs').
  { destruct c; try discriminate Hc;
      try (exists frs; split; [exact Hfrs | apply Permutation_refl]).
    exact (fragments_swap ["id"; "tags"; "deployment_id"]
             "flow_version" "state_type"
             ["start_time"; "expected_start_time";
              "next_scheduled_start_time"; "parent_task_run_id"]
             self frs Hfrs). }
  destruct Hdeclared as (frs' & Hfrs' & Hperm).
  exists frs, frs'. repeat split; assumption.
Qed.

Lemma compiled_children_as_in_declared_order_witness :
  exists frs frs',
    AND [IN (Col FlowRun "flow_version") [Str "v1"];
         IN (Col FlowRun "state_type") [StateType "COMPLETED"]] =
    and_filters frs
    /\ fragments (field_names FlowRunFilter) state_and_version_values =
       Returns frs'
    /\ Permutation frs frs'.
Proof.
  apply (compiled_children_as_in_declared_order FlowRunFilter
           state_and_version_values).
  - reflexivity.
  - reflexivity.
Defined.
